(** * Wildfire destruction model: encoding, statistics, training and scoring

    A shallow embedding of the feature-encoding and inference pipeline of
    [flows/wildfire/flow.py] (the [train] step of [WildfireFlow]) and of
    [deployments/scenarios/scenario_app.py] ([encode_feature],
    [predict_destruction]).

    Python values are modelled as follows.
    - [str] is [string]; a NULL / NaN cell of a data frame is [None] in an
      [option string].
    - A [dict] is a [gmap]; a [list] or a one-dimensional array is a [list].
    - An integer code produced by the label encoder is a [nat] (an index
      into the sorted class array).
    - A raised exception is the [Raise] branch of [result]; [try ... except
      ValueError] is [except_ValueError].
    - The mean of an integer column is an exact rational ([Q]).
    - scikit-learn's splitter, classifier and metric are operations of a
      record [Sklearn.t]; their floating-point results live in an abstract
      type. *)

From stdpp Require Import gmap strings list fin_maps sorting.
From Stdlib Require Import QArith Qround.

Open Scope string_scope.
Open Scope nat_scope.

(** ** Exceptions *)

Inductive exn : Type :=
  | ValueError
  | KeyError
  | IndexError.

Inductive result (A : Type) : Type :=
  | Ok (a : A)
  | Raise (e : exn).
Arguments Ok {A} a.
Arguments Raise {A} e.

#[global] Instance exn_eq_dec : EqDecision exn.
Proof. solve_decision. Defined.

#[global] Instance result_ret : MRet result := @Ok.
#[global] Instance result_bind : MBind result := λ A B f m,
  match m with
  | Ok a => f a
  | Raise e => Raise e
  end.
#[global] Instance result_fmap : FMap result := λ A B f m,
  match m with
  | Ok a => Ok (f a)
  | Raise e => Raise e
  end.

(** [try: body except ValueError: handler]. Any other exception passes
    through. *)
Definition except_ValueError {A} (body handler : result A) : result A :=
  match body with
  | Raise ValueError => handler
  | r => r
  end.

(** [xs[i]] on a sequence. *)
Definition getitem {A} (xs : list A) (i : nat) : result A :=
  match xs !! i with
  | Some x => Ok x
  | None => Raise IndexError
  end.

(** [d[k]] on a dict. *)
Definition dict_getitem {A} (d : gmap string A) (k : string) : result A :=
  match d !! k with
  | Some x => Ok x
  | None => Raise KeyError
  end.

(** [d.get(k, dflt)] on a dict. *)
Definition dict_get {A} (d : gmap string A) (k : string) (dflt : A) : A :=
  default dflt (d !! k).

(** ** [sklearn.preprocessing.LabelEncoder] on string labels

    [fit] stores the sorted array of distinct labels in [classes_];
    [transform] maps each label to its index in [classes_] and raises
    [ValueError] as soon as a label is not in [classes_]. *)

Module LabelEncoder.

Definition str_le (a b : string) : Prop := String.leb a b = true.

#[global] Instance str_le_dec a b : Decision (str_le a b).
Proof. unfold str_le. apply _. Defined.

Record t : Type := { classes_ : list string }.

Definition fit (y : list string) : t :=
  {| classes_ := merge_sort str_le (remove_dups y) |}.

Definition index_of (v : string) (classes : list string) : option nat :=
  fst <$> list_find (λ c, c = v) classes.

Definition transform1 (le : t) (v : string) : result nat :=
  match index_of v (classes_ le) with
  | Some i => Ok i
  | None => Raise ValueError
  end.

Definition transform (le : t) (y : list string) : result (list nat) :=
  mapM (transform1 le) y.

Definition fit_transform (y : list string) : t * result (list nat) :=
  let le := fit y in (le, transform le y).

End LabelEncoder.

(** ** [scenario_app.py]: [encode_feature] *)

Definition encode_feature (value : string) (encoder : LabelEncoder.t)
    (feature_name : string) : result nat :=
  except_ValueError
    (codes ← LabelEncoder.transform encoder [value]; getitem codes 0)
    (except_ValueError
       (codes ← LabelEncoder.transform encoder ["Unknown"]; getitem codes 0)
       (Ok 0)).

(** ** [flow.py]: the rows selected from the [wildfires] table

    A [Row] is one row of the projection of the SQL query: the [damage]
    column and the twelve aliased feature columns, kept in [cells] under
    their aliases. A column with no entry in [cells] is NULL. *)

Record Row : Type := {
  damage : option string;
  cells : gmap string string
}.

Definition feature_cols : list string :=
  [ "structure_type"; "structure_category"; "roof_construction"; "eaves";
    "vent_screen"; "exterior_siding"; "window_pane"; "deck_on_grade";
    "deck_elevated"; "patio_cover"; "fence_attached"; "county" ].

(** [WHERE "* Damage" != 'Inaccessible']. Under SQL's three-valued logic a
    NULL damage makes the comparison NULL, and the row is not selected. *)
Definition where_damage (r : Row) : bool :=
  match damage r with
  | Some d => bool_decide (d ≠ "Inaccessible")
  | None => false
  end.

(** The query run for [df] and, a second time, for [df_orig]. *)
Definition select_wildfires (wildfires : list Row) : list Row :=
  filter (λ r, where_damage r = true) wildfires.

(** [(df["damage"] == "Destroyed (>50%)").astype(int)], row by row. *)
Definition target (r : Row) : Z :=
  if decide (damage r = Some "Destroyed (>50%)") then 1%Z else 0%Z.

(** [df[col]] on the raw frame, and [.fillna(v)]. *)
Definition column (col : string) (df : list Row) : list (option string) :=
  (λ r, cells r !! col) <$> df.

Definition fillna (v : string) (s : list (option string)) : list string :=
  default v <$> s.

(** The loop [for col in feature_cols: le = LabelEncoder(); df[col] =
    le.fit_transform(df[col].fillna("Unknown").astype(str)); encoders[col] =
    le]. [encoded] holds the columns of [df] overwritten so far; the column
    names of [feature_cols] are distinct, so each iteration reads a column
    that still holds its raw strings. *)
Fixpoint fit_encoders (cols : list string) (df : list Row)
    (encoded : gmap string (list nat)) (encoders : gmap string LabelEncoder.t)
    : result (gmap string (list nat) * gmap string LabelEncoder.t) :=
  match cols with
  | [] => Ok (encoded, encoders)
  | col :: cols' =>
      let '(le, codes) :=
        LabelEncoder.fit_transform (fillna "Unknown" (column col df)) in
      codes ← codes;
      fit_encoders cols' df (<[col := codes]> encoded) (<[col := le]> encoders)
  end.

(** [df[feature_cols]] as a list of sample rows. *)
Definition frame_rows (n : nat) (columns : list (list nat)) : list (list nat) :=
  (λ i, omap (λ c, c !! i) columns) <$> seq 0 n.

Definition select_columns (cols : list string) (n : nat)
    (encoded : gmap string (list nat)) : result (list (list nat)) :=
  columns ← mapM (dict_getitem encoded) cols;
  Ok (frame_rows n columns).

(** ** Destruction statistics per feature value *)

Record FeatureValueStat : Type := {
  value : string;
  destruction_rate : Q;
  count : nat
}.

Definition sum_Z (xs : list Z) : Z := foldr Z.add 0%Z xs.

(** The mean of an integer column. *)
Definition mean (xs : list Z) : Q :=
  (inject_Z (sum_Z xs) / inject_Z (Z.of_nat (length xs)))%Q.

(** The rows of the group of [df.groupby(col)] with key [v]. *)
Definition group (df : list Row) (col v : string) : list Row :=
  filter (λ r, cells r !! col = Some v) df.

(** [df_orig.groupby(col).agg(destruction_rate=("target", "mean"),
    count=("target", "count")).reset_index()]: one entry per distinct
    non-NULL value of the column, in sorted key order (NULL keys are
    dropped by [groupby]). *)
Definition groupby_agg (df : list Row) (col : string) : list FeatureValueStat :=
  (λ v, {| value := v;
           destruction_rate := mean (target <$> group df col v);
           count := length (group df col v) |})
  <$> merge_sort LabelEncoder.str_le (remove_dups (omap id (column col df))).

(** [stats[stats["count"] >= 20]] *)
Definition reliable (stats : list FeatureValueStat) : list FeatureValueStat :=
  filter (λ s, 20 ≤ count s) stats.

Definition feature_value_stats (df_orig : list Row)
    : gmap string (list FeatureValueStat) :=
  foldl (λ acc col, <[col := reliable (groupby_agg df_orig col)]> acc)
        ∅ feature_cols.

(** ** Computations with an ambient state

    [M S A] is a computation that may raise and that reads and updates a
    state [S]; the state reached when the exception was raised is kept. *)

Definition M (S A : Type) : Type := S → result A * S.

#[global] Instance M_ret {S} : MRet (M S) := λ A a s, (Ok a, s).
#[global] Instance M_bind {S} : MBind (M S) := λ A B f m s,
  match m s with
  | (Ok a, s') => f a s'
  | (Raise e, s') => (Raise e, s')
  end.

Definition lift {S A} (r : result A) : M S A := λ s, (r, s).

(** Run a computation on the second component of a pair of states. *)
Definition on_snd {S1 S2 A} (m : M S2 A) : M (S1 * S2) A := λ s,
  let '(r, s2) := m s.2 in (r, (s.1, s2)).

Definition modify_fst {S1 S2} (f : S1 → S1) : M (S1 * S2) unit := λ s,
  (Ok (), (f s.1, s.2)).

(** ** The operations of scikit-learn used by the flow and the app

    [rng] is the state of the process-wide random generator, which an
    operation called without a [random_state] draws from. *)

Module Sklearn.

Record t (float estimator rng : Type) : Type := {
  train_test_split :
    list (list nat) → list Z →
    ∀ (test_size : Q) (random_state : option Z) (stratify : option (list Z)),
    M rng (list (list nat) * list (list nat) * list Z * list Z);
  GradientBoostingClassifier_fit :
    ∀ (n_estimators max_depth : nat) (random_state : option Z),
    list (list nat) → list Z → M rng estimator;
  predict_proba : estimator → list (list nat) → M rng (list (list float));
  feature_importances_ : estimator → list float;
  roc_auc_score : list Z → list float → M rng float
}.
Arguments train_test_split {float estimator rng}.
Arguments GradientBoostingClassifier_fit {float estimator rng}.
Arguments predict_proba {float estimator rng}.
Arguments feature_importances_ {float estimator rng}.
Arguments roc_auc_score {float estimator rng}.

End Sklearn.

(** ** [flow.py]: the [train] step of [WildfireFlow]

    [FlowState] holds the artifacts assigned to [self] by the step; a field
    is [None] until the step assigns it. *)

Record FlowState (float estimator : Type) : Type := {
  self_auc_score : option float;
  self_feature_importances : option (gmap string float);
  self_model : option estimator;
  self_encoders : option (gmap string LabelEncoder.t);
  self_feature_cols : option (list string)
}.
Arguments self_auc_score {float estimator}.
Arguments self_feature_importances {float estimator}.
Arguments self_model {float estimator}.
Arguments self_encoders {float estimator}.
Arguments self_feature_cols {float estimator}.

Definition no_artifacts {float estimator} : FlowState float estimator :=
  {| self_auc_score := None; self_feature_importances := None;
     self_model := None; self_encoders := None; self_feature_cols := None |}.

(** [dict(pairs)]: a later pair overrides an earlier one with the same key. *)
Definition dict_of_pairs {A} (kvs : list (string * A)) : gmap string A :=
  foldl (λ d kv, <[kv.1 := kv.2]> d) ∅ kvs.

Section Pipeline.
Context {float estimator rng : Type}.
Variable sk : Sklearn.t float estimator rng.

#[local] Abbreviation self := (FlowState float estimator).

Definition set_auc_score (v : float) (s : self) : self :=
  {| self_auc_score := Some v;
     self_feature_importances := self_feature_importances s;
     self_model := self_model s; self_encoders := self_encoders s;
     self_feature_cols := self_feature_cols s |}.

Definition set_feature_importances (v : gmap string float) (s : self) : self :=
  {| self_auc_score := self_auc_score s;
     self_feature_importances := Some v;
     self_model := self_model s; self_encoders := self_encoders s;
     self_feature_cols := self_feature_cols s |}.

Definition set_model (v : estimator) (s : self) : self :=
  {| self_auc_score := self_auc_score s;
     self_feature_importances := self_feature_importances s;
     self_model := Some v; self_encoders := self_encoders s;
     self_feature_cols := self_feature_cols s |}.

Definition set_encoders (v : gmap string LabelEncoder.t) (s : self) : self :=
  {| self_auc_score := self_auc_score s;
     self_feature_importances := self_feature_importances s;
     self_model := self_model s; self_encoders := Some v;
     self_feature_cols := self_feature_cols s |}.

Definition set_feature_cols (v : list string) (s : self) : self :=
  {| self_auc_score := self_auc_score s;
     self_feature_importances := self_feature_importances s;
     self_model := self_model s; self_encoders := self_encoders s;
     self_feature_cols := Some v |}.

(** The body of [train], from the query to the statistics handed to the
    card renderer. *)
Definition train (wildfires : list Row)
    : M (self * rng) (gmap string (list FeatureValueStat)) :=
  let df := select_wildfires wildfires in
  let y := target <$> df in
  '(encoded, encoders) ← lift (fit_encoders feature_cols df ∅ ∅);
  X ← lift (select_columns feature_cols (length df) encoded);
  '(X_train, X_test, y_train, y_test) ←
    on_snd (Sklearn.train_test_split sk X y (1 # 5) (Some 42%Z) (Some y));
  model ← on_snd (Sklearn.GradientBoostingClassifier_fit sk 100 5 (Some 42%Z)
                    X_train y_train);
  proba ← on_snd (Sklearn.predict_proba sk model X_test);
  y_pred_proba ← lift (mapM (λ row, getitem row 1) proba);
  auc ← on_snd (Sklearn.roc_auc_score sk y_test y_pred_proba);
  modify_fst (set_auc_score auc);;
  modify_fst (set_feature_importances
                (dict_of_pairs
                   (zip feature_cols (Sklearn.feature_importances_ sk model))));;
  modify_fst (set_model model);;
  modify_fst (set_encoders encoders);;
  modify_fst (set_feature_cols feature_cols);;
  let df_orig := select_wildfires wildfires in
  mret (feature_value_stats df_orig).

(** ** [scenario_app.py]: [predict_destruction] *)

(** The loop filling [encoded_features]. *)
Fixpoint encode_columns (encoders : gmap string LabelEncoder.t)
    (features : gmap string string) (cols : list string)
    (encoded_features : list nat) : result (list nat) :=
  match cols with
  | [] => Ok encoded_features
  | col :: cols' =>
      let value := dict_get features col "Unknown" in
      encoder ← dict_getitem encoders col;
      encoded ← encode_feature value encoder col;
      encode_columns encoders features cols' (encoded_features ++ [encoded])
  end.

Definition predict_destruction (model : estimator)
    (encoders : gmap string LabelEncoder.t) (feature_cols : list string)
    (features : gmap string string) : M rng float :=
  encoded_features ← lift (encode_columns encoders features feature_cols []);
  let X := [encoded_features] in
  proba ← Sklearn.predict_proba sk model X;
  lift (row ← getitem proba 0; getitem row 1).

End Pipeline.

(** ** Independence from the ambient generator

    [ambient_free m]: the outcome of [m] is the same from any state of the
    generator. [self_determined m]: the outcome of [m] and the artifacts it
    leaves on [self] are the same from any state of the generator. *)

Definition ambient_free {rng A} (m : M rng A) : Prop :=
  ∀ g g', (m g).1 = (m g').1.

Definition self_determined {S rng A} (m : M (S * rng) A) : Prop :=
  ∀ s g g', (m (s, g)).1 = (m (s, g')).1 ∧ (m (s, g)).2.1 = (m (s, g')).2.1.

(** ** A small instance of the scikit-learn operations

    Used to run the pipeline on concrete tables. Floats are rationals, the
    generator state is a counter, and a fitted estimator is the destruction
    rate it predicts. An operation called with a [random_state] leaves the
    counter alone; one called without draws from it. Like scikit-learn, the
    splitter refuses an empty partition, and the classifier and the metric
    refuse labels with fewer than two classes. *)

Module ToySklearn.

Definition n_test (n : nat) (test_size : Q) : nat :=
  Z.to_nat (Qceiling (inject_Z (Z.of_nat n) * test_size)).

Definition shuffled {A} (random_state : option Z) (g : nat) (l : list A) : list A :=
  match random_state with
  | Some _ => l
  | None => if Nat.even g then l else reverse l
  end.

Definition noise (random_state : option Z) (g : nat) : Z :=
  match random_state with
  | Some _ => 0%Z
  | None => Z.of_nat (g `mod` 2)
  end.

Definition draw (random_state : option Z) (g : nat) : nat :=
  match random_state with
  | Some _ => g
  | None => S g
  end.

Definition train_test_split (X : list (list nat)) (y : list Z) (test_size : Q)
    (random_state : option Z) (stratify : option (list Z))
    : M nat (list (list nat) * list (list nat) * list Z * list Z) := λ g,
  let n := length y in
  let n_train := n - n_test n test_size in
  if decide (n_test n test_size = 0 ∨ n_train = 0) then (Raise ValueError, g)
  else
    let X' := shuffled random_state g X in
    let y' := shuffled random_state g y in
    (Ok (take n_train X', drop n_train X', take n_train y', drop n_train y'),
     draw random_state g).

Definition fit (n_estimators max_depth : nat) (random_state : option Z)
    (X : list (list nat)) (y : list Z) : M nat Q := λ g,
  if decide (length (remove_dups y) < 2) then (Raise ValueError, g)
  else (Ok (mean (noise random_state g :: y)), draw random_state g).

Definition predict_proba (p : Q) (X : list (list nat)) : M nat (list (list Q)) :=
  λ g, (Ok ((λ _, [(1 - p)%Q; p]) <$> X), g).

Definition feature_importances_ (p : Q) : list Q := replicate 12 (1 # 12)%Q.

Definition roc_auc_score (y_true : list Z) (y_score : list Q) : M nat Q := λ g,
  if decide (length (remove_dups y_true) < 2) then (Raise ValueError, g)
  else (Ok (1 # 2)%Q, g).

Definition sk : Sklearn.t Q Q nat :=
  {| Sklearn.train_test_split := train_test_split;
     Sklearn.GradientBoostingClassifier_fit := fit;
     Sklearn.predict_proba := predict_proba;
     Sklearn.feature_importances_ := feature_importances_;
     Sklearn.roc_auc_score := roc_auc_score |}.

(** The same instance with a classifier and a metric that accept labels of
    a single class. *)
Definition lenient_fit (n_estimators max_depth : nat) (random_state : option Z)
    (X : list (list nat)) (y : list Z) : M nat Q := λ g,
  (Ok (mean (noise random_state g :: y)), draw random_state g).

Definition lenient_roc_auc_score (y_true : list Z) (y_score : list Q) : M nat Q :=
  λ g, (Ok (1 # 2)%Q, g).

Definition lenient_sk : Sklearn.t Q Q nat :=
  {| Sklearn.train_test_split := train_test_split;
     Sklearn.GradientBoostingClassifier_fit := lenient_fit;
     Sklearn.predict_proba := predict_proba;
     Sklearn.feature_importances_ := feature_importances_;
     Sklearn.roc_auc_score := lenient_roc_auc_score |}.

(** A row with the given damage, roof construction and county. *)
Definition row (d roof county : string) : Row :=
  {| damage := Some d;
     cells := {[ "roof_construction" := roof; "county" := county ]} |}.

End ToySklearn.


(** ** Python string methods used by the cards

    A [string] is read as a sequence of characters with code points below
    256. *)

Module Str.

(** The character written as a one-character string. *)
Definition char (s : string) : Ascii.ascii :=
  match s with
  | String a _ => a
  | EmptyString => Ascii.zero
  end.
Arguments char : simpl never.

(** [str.isspace] on one character. *)
Definition isspace (a : Ascii.ascii) : bool :=
  let n := Ascii.nat_of_ascii a in
  ((9 <=? n) && (n <=? 13)) || ((28 <=? n) && (n <=? 32))
  || (n =? 133) || (n =? 160).

(** [s.split()]: the maximal runs of non-whitespace characters. [cur] is the
    run being read. *)
Fixpoint split_ws (s : string) (cur : string) : list string :=
  match s with
  | EmptyString => if decide (cur = EmptyString) then [] else [cur]
  | String a s' =>
      if isspace a
      then (if decide (cur = EmptyString) then split_ws s' EmptyString else cur :: split_ws s' EmptyString)
      else split_ws s' (cur ++ String a EmptyString)
  end.

Definition split (s : string) : list string := split_ws s EmptyString.

(** [s.split(sep)] for a one-character separator. *)
Fixpoint split_sep (sep : Ascii.ascii) (s : string) (cur : string) : list string :=
  match s with
  | EmptyString => [cur]
  | String a s' =>
      if decide (a = sep) then cur :: split_sep sep s' EmptyString
      else split_sep sep s' (cur ++ String a EmptyString)
  end.

Definition split_on (sep : Ascii.ascii) (s : string) : list string :=
  split_sep sep s EmptyString.

Fixpoint zeros (n : nat) : string :=
  match n with
  | 0 => EmptyString
  | S n' => String (char "0") (zeros n')
  end.

(** [s.zfill(width)]: pad with zeros on the left, after a leading sign. *)
Definition zfill (width : nat) (s : string) : string :=
  if decide (width ≤ String.length s) then s
  else
    let fill := width - String.length s in
    match s with
    | String a s' =>
        if decide (a = char "+" ∨ a = char "-")
        then String a (zeros fill ++ s')
        else zeros fill ++ s
    | EmptyString => zeros fill
    end.

(** [s[:n]] *)
Fixpoint take (n : nat) (s : string) : string :=
  match n, s with
  | S n', String a s' => String a (take n' s')
  | _, _ => EmptyString
  end.

(** [s.replace(a, b)] for one-character [a] and [b]. *)
Fixpoint replace (a b : Ascii.ascii) (s : string) : string :=
  match s with
  | EmptyString => EmptyString
  | String c s' => String (if decide (c = a) then b else c) (replace a b s')
  end.


(** The number of characters of [s] that satisfy [P]. *)
Fixpoint count (P : Ascii.ascii → bool) (s : string) : nat :=
  match s with
  | EmptyString => 0
  | String a s' => (if P a then 1 else 0) + count P s'
  end.

End Str.


(** ** [wildfire_card.py]: grouping the incidents by month *)

Module WildfireCard.

(** One entry of [incidents_by_month]. *)
Record Incident : Type := {
  date : string;
  incident_name : option string;
  damage : option string;
  county : option string;
  lat : Q;
  lon : Q
}.

(** One row of [result]: [(date_str, incident_name, damage, county, lat,
    lon)]. The query keeps only rows whose latitude and longitude are
    neither NULL nor zero. *)
Definition ResultRow : Type :=
  option string * option string * option string * option string * Q * Q.

(** [except (ValueError, IndexError): handler] *)
Definition except_ValueError_IndexError {A} (body handler : result A) : result A :=
  match body with
  | Raise ValueError | Raise IndexError => handler
  | r => r
  end.

(** The body of the [try] for a row whose date string is [date_str]: the
    month key and the incident to append, or [None] when the first token of
    the date does not have three parts. *)
Definition month_entry (date_str : string) (row : ResultRow)
    : result (option (string * Incident)) :=
  let '(_, incident_name, damage, county, lat, lon) := row in
  first ← getitem (Str.split date_str) 0;
  let parts := Str.split_on (Str.char "-") first in
  if decide (length parts = 3) then
    match parts with
    | [month; day; year] =>
        let month_key := year ++ "-" ++ Str.zfill 2 month in
        date ← getitem (Str.split date_str) 0;
        Ok (Some (month_key,
                  {| date := date; incident_name := incident_name;
                     damage := damage; county := county;
                     lat := lat; lon := lon |}))
    | _ => Raise ValueError
    end
  else Ok None.

(** [incidents_by_month[month_key].append(incident)] on a
    [defaultdict(list)]. *)
Definition append_to (month_key : string) (incident : Incident)
    (incidents_by_month : gmap string (list Incident))
    : gmap string (list Incident) :=
  <[month_key := (default [] (incidents_by_month !! month_key) ++ [incident])%list]>
    incidents_by_month.

(** One iteration of [for row in result]. *)
Definition step (incidents_by_month : gmap string (list Incident))
    (row : ResultRow) : result (gmap string (list Incident)) :=
  match row.1.1.1.1.1 with
  | None => Ok incidents_by_month
  | Some date_str =>
      if decide (date_str = EmptyString) then Ok incidents_by_month
      else
        except_ValueError_IndexError
          (entry ← month_entry date_str row;
           match entry with
           | Some (month_key, incident) =>
               Ok (append_to month_key incident incidents_by_month)
           | None => Ok incidents_by_month
           end)
          (Ok incidents_by_month)
  end.

Fixpoint loop (rows : list ResultRow)
    (incidents_by_month : gmap string (list Incident))
    : result (gmap string (list Incident)) :=
  match rows with
  | [] => Ok incidents_by_month
  | row :: rows' =>
      incidents_by_month' ← step incidents_by_month row;
      loop rows' incidents_by_month'
  end.

(** The value of [data["incidents_by_month"]] that [render_wildfire_card]
    hands to the template. *)
Definition incidents_by_month
    : list ResultRow → result (gmap string (list Incident)) :=
  λ result, loop result ∅.

End WildfireCard.


(** ** [train_card.py]: the feature-importance card *)

Module TrainCard.

(** [sorted(xs, key=key)]: a stable sort by ascending key. [insert_by] puts
    [x] in front of the first element whose key is not smaller. *)
Fixpoint insert_by {A} (key : A → Q) (x : A) (sorted : list A) : list A :=
  match sorted with
  | [] => [x]
  | y :: sorted' =>
      if Qle_bool (key x) (key y) then x :: y :: sorted'
      else y :: insert_by key x sorted'
  end.

Definition sorted_by {A} (key : A → Q) (xs : list A) : list A :=
  foldr (insert_by key) [] xs.

(** One entry of [chart_data]. *)
Record ChartRow : Type := {
  row_value : string;
  row_destruction_rate : Q;
  row_count : nat
}.

(** What is appended to [current.card]. A chart is kept by its data; the
    rest of its Vega-Lite description is constant. *)
Inductive Component : Type :=
  | Markdown (text : string)
  | ImportanceChart (data : list (string * Q))
  | DestructionChart (data : list ChartRow).


#[global] Instance Qlt_dec (x y : Q) : Decision (x < y)%Q.
Proof.
  destruct (Qlt_le_dec x y) as [H|H]; [by left|right].
  by apply Qle_not_lt.
Defined.

Section Card.

(** [f"{x:.4f}"], [round(x, 1)] and [str.title]. *)
Variable format_4f : Q → string.
Variable round1 : Q → Q.
Variable title : string → string.

Definition chart_row (s : FeatureValueStat) : ChartRow :=
  {| row_value := Str.take 25 (value s);
     row_destruction_rate := round1 (destruction_rate s * 100)%Q;
     row_count := count s |}.

(** The part of the loop body for one of the top features. *)
Definition feature_charts
    (feature_value_stats : gmap string (list FeatureValueStat))
    (feature : string * Q) : list Component :=
  match feature_value_stats !! feature.1 with
  | None => []
  | Some [] => []
  | Some stats =>
      let sorted_stats := sorted_by (λ x, - destruction_rate x)%Q stats in
      let chart_data := chart_row <$> take 10 sorted_stats in
      let feat_display := title (Str.replace (Str.char "_") (Str.char " ") feature.1) in
      [Markdown ("### " ++ feat_display); DestructionChart chart_data]
  end.

(** [feature_importances] is given by its items, in insertion order;
    [feature_value_stats] is [None] when the argument is left out. *)
Definition render_feature_importance_card
    (feature_importances : list (string * Q)) (auc_score : Q)
    (feature_value_stats : option (gmap string (list FeatureValueStat)))
    : list Component :=
  [ Markdown "# Model Training Results";
    Markdown ("**AUC Score:** " ++ format_4f auc_score);
    Markdown "## Feature Importances";
    ImportanceChart feature_importances ] ++
  match feature_value_stats with
  | None => []
  | Some stats_by_feature =>
      if decide (stats_by_feature = ∅) then []
      else
        let sorted_features :=
          take 3 (sorted_by (λ x, - x.2)%Q feature_importances) in
        [ Markdown "## Feature Values Correlated with Destruction";
          Markdown "*Showing values with highest destruction rates (min 20 samples)*" ]
        ++ mjoin (feature_charts stats_by_feature <$> sorted_features)
  end.

End Card.

End TrainCard.


(** ** [scenario_app.py]: the pieces of [main] around the prediction *)

Module ScenarioApp.

(** The double-quote character. *)
Definition dquote : string := String (Ascii.ascii_of_nat 34) EmptyString.

(** [FEATURE_OPTIONS], by its items in insertion order. *)
Definition FEATURE_OPTIONS : list (string * list string) :=
  [ ("structure_type",
     [ "Single Family Residence Single Story";
       "Single Family Residence Multi Story";
       "Mobile Home Single Wide"; "Mobile Home Double Wide";
       "Mobile Home Triple Wide"; "Multi Family Residence Single Story";
       "Multi Family Residence Multi Story"; "Mixed Commercial/Residential";
       "Commercial Building Single Story"; "Commercial Building Multi Story";
       "Motor Home"; "Utility Misc Structure"; "Agriculture";
       "Infrastructure"; "Church"; "School"; "Hospital" ]);
    ("structure_category",
     [ "Single Residence"; "Multiple Residence";
       "Mixed Commercial/Residential"; "Nonresidential Commercial";
       "Other Minor Structure"; "Infrastructure"; "Agriculture" ]);
    ("roof_construction",
     [ "Asphalt"; "Metal"; "Tile"; "Concrete"; "Wood"; "Other"; "Unknown" ]);
    ("eaves", [ "Enclosed"; "Unenclosed"; "No Eaves"; "Unknown" ]);
    ("vent_screen",
     [ "Mesh Screen <= 1/8" ++ dquote; "Mesh Screen > 1/8" ++ dquote;
       "Unscreened"; "No Vents"; "Unknown" ]);
    ("exterior_siding",
     [ "Stucco/Brick/Cement"; "Ignition Resistant"; "Wood"; "Metal"; "Vinyl";
       "Combustible"; "Other"; "Unknown" ]);
    ("window_pane",
     [ "Multi Pane"; "Single Pane"; "Radiant Heat"; "No Windows"; "Unknown" ]);
    ("deck_on_grade",
     [ "No Deck/Porch"; "Wood"; "Composite"; "Masonry/Concrete"; "Unknown" ]);
    ("deck_elevated",
     [ "No Deck/Porch"; "Wood"; "Composite"; "Masonry/Concrete"; "Unknown" ]);
    ("patio_cover",
     [ "No Patio Cover/Carport"; "Non Combustible"; "Combustible"; "Unknown" ]);
    ("fence_attached",
     [ "No Fence"; "Non Combustible"; "Combustible"; "Unknown" ]) ].

Definition FEATURE_LABELS : gmap string string :=
  dict_of_pairs
    [ ("structure_type", "Structure Type");
      ("structure_category", "Structure Category");
      ("roof_construction", "Roof Construction");
      ("eaves", "Eaves Type");
      ("vent_screen", "Vent Screen");
      ("exterior_siding", "Exterior Siding");
      ("window_pane", "Window Pane Type");
      ("deck_on_grade", "Deck/Porch On Grade");
      ("deck_elevated", "Deck/Porch Elevated");
      ("patio_cover", "Patio Cover/Carport");
      ("fence_attached", "Fence Attached") ].

Section Main.

(** [st.selectbox(label, options=options, key=key)]: the option the user
    has selected. *)
Variable selectbox : string → list string → string → string.

(** [for feat_name, options in items: features[feat_name] =
    st.selectbox(FEATURE_LABELS[feat_name], options=options,
    key=feat_name)] *)
Fixpoint select_features (items : list (string * list string))
    (features : gmap string string) : result (gmap string string) :=
  match items with
  | [] => Ok features
  | (feat_name, options) :: items' =>
      label ← dict_getitem FEATURE_LABELS feat_name;
      select_features items'
        (<[feat_name := selectbox label options feat_name]> features)
  end.

(** The [features] mapping that [main] passes to [predict_destruction]. *)
Definition build_features (selected_county : string)
    : result (gmap string string) :=
  let features : gmap string string := {[ "county" := selected_county ]} in
  let feature_items := FEATURE_OPTIONS in
  let half := length feature_items `div` 2 in
  features ← select_features (take half feature_items) features;
  select_features (drop half feature_items) features.

End Main.



(** The search for the county closest to a click. Floats are kept abstract:
    [dist lat lon] is [(lat - click_lat) ** 2 + (lon - click_lng) ** 2] and
    [lt] is [<]. *)
Section ClosestCounty.

Context {float : Type}.
Variable dist : float → float → float.
Variable lt : float → float → bool.
Variable inf : float.
Variable float_0_5 : float.



End ClosestCounty.

End ScenarioApp.


(** * Properties *)

(** ** The result monad *)

Lemma mapM_result_singleton {A B} (f : A → result B) (x : A) :
  mapM f [x] = (λ y, [y]) <$> f x.
Proof. simpl. by destruct (f x). Qed.

(** ** The label encoder *)

Module LabelEncoderFacts.
Import LabelEncoder.

#[global] Instance str_le_total : Total str_le.
Proof. intros a b. apply String.leb_total. Qed.

Lemma classes_fit_Permutation (y : list string) :
  classes_ (fit y) ≡ₚ remove_dups y.
Proof. apply merge_sort_Permutation. Qed.

Lemma elem_of_classes_fit (y : list string) (v : string) :
  v ∈ classes_ (fit y) ↔ v ∈ y.
Proof. by rewrite classes_fit_Permutation, elem_of_remove_dups. Qed.

Lemma NoDup_classes_fit (y : list string) : NoDup (classes_ (fit y)).
Proof. rewrite classes_fit_Permutation. apply NoDup_remove_dups. Qed.

Lemma length_classes_fit (y : list string) :
  length (classes_ (fit y)) = length (remove_dups y).
Proof. by rewrite classes_fit_Permutation. Qed.

Lemma Sorted_classes_fit (y : list string) : Sorted str_le (classes_ (fit y)).
Proof. by apply Sorted_merge_sort, str_le_total. Qed.

Lemma index_of_Some (v : string) (cl : list string) (i : nat) :
  index_of v cl = Some i → cl !! i = Some v.
Proof.
  unfold index_of. destruct (list_find _ cl) as [[j x]|] eqn:E; [|done].
  intros [= <-]. apply list_find_Some in E as (? & -> & _). done.
Qed.

Lemma index_of_None (v : string) (cl : list string) :
  index_of v cl = None ↔ v ∉ cl.
Proof.
  unfold index_of. rewrite fmap_None, list_find_None, Forall_forall.
  split.
  - intros H Hin. by apply (H v).
  - intros H x Hx ->. done.
Qed.

Lemma index_of_NoDup (v : string) (cl : list string) (i : nat) :
  NoDup cl → cl !! i = Some v → index_of v cl = Some i.
Proof.
  intros Hnd Hi. destruct (index_of v cl) as [j|] eqn:E.
  - apply index_of_Some in E. f_equal. by eapply NoDup_lookup.
  - apply index_of_None in E. destruct E. by eapply list_elem_of_lookup_2.
Qed.

Lemma transform1_Ok (le : t) (v : string) (c : nat) :
  transform1 le v = Ok c → classes_ le !! c = Some v.
Proof.
  unfold transform1. destruct (index_of _ _) eqn:E; [|done].
  intros [= <-]. by apply index_of_Some.
Qed.

Lemma transform1_seen (le : t) (v : string) :
  v ∈ classes_ le → ∃ c, transform1 le v = Ok c.
Proof.
  intros Hin. unfold transform1. destruct (index_of _ _) eqn:E; [eauto|].
  by apply index_of_None in E.
Qed.

Lemma transform1_unseen (le : t) (v : string) :
  v ∉ classes_ le → transform1 le v = Raise ValueError.
Proof. intros Hin. unfold transform1. by apply index_of_None in Hin as ->. Qed.

Lemma transform_singleton (le : t) (v : string) :
  transform le [v] = (λ c, [c]) <$> transform1 le v.
Proof. apply mapM_result_singleton. Qed.

End LabelEncoderFacts.
Import LabelEncoderFacts.

(** ** [encode_feature] *)

Lemma encode_feature_unfold (value : string) (encoder : LabelEncoder.t)
    (feature_name : string) :
  encode_feature value encoder feature_name =
  match LabelEncoder.transform1 encoder value with
  | Ok c => Ok c
  | Raise _ =>
      match LabelEncoder.transform1 encoder "Unknown" with
      | Ok c => Ok c
      | Raise _ => Ok 0
      end
  end.
Proof.
  unfold encode_feature. rewrite !transform_singleton.
  unfold LabelEncoder.transform1.
  destruct (LabelEncoder.index_of value _); [done|].
  by destruct (LabelEncoder.index_of "Unknown" _).
Qed.

Lemma encode_feature_total (value : string) (encoder : LabelEncoder.t)
    (feature_name : string) :
  ∃ c, encode_feature value encoder feature_name = Ok c.
Proof.
  rewrite encode_feature_unfold.
  destruct (LabelEncoder.transform1 encoder value); [eauto|].
  destruct (LabelEncoder.transform1 encoder "Unknown"); eauto.
Qed.

Lemma encode_feature_seen (value : string) (encoder : LabelEncoder.t)
    (feature_name : string) (c : nat) :
  LabelEncoder.transform1 encoder value = Ok c →
  encode_feature value encoder feature_name = Ok c.
Proof. intros H. by rewrite encode_feature_unfold, H. Qed.

(** C1. For an encoder fitted on a non-empty sequence [vals] and a string
    [v] that is not among [vals], [encode_feature] returns the code of
    ["Unknown"] when ["Unknown"] is among the fitted values, returns [0]
    otherwise, and in either case returns a code rather than raising. *)
Theorem encode_unseen_fallback (vals : list string) (v feature_name : string) :
  vals ≠ [] → v ∉ vals →
  let enc := LabelEncoder.fit vals in
  ("Unknown" ∈ vals →
     ∃ c, LabelEncoder.classes_ enc !! c = Some "Unknown" ∧
          LabelEncoder.transform enc ["Unknown"] = Ok [c] ∧
          encode_feature v enc feature_name = Ok c) ∧
  ("Unknown" ∉ vals → encode_feature v enc feature_name = Ok 0) ∧
  (∃ c, encode_feature v enc feature_name = Ok c).
Proof.
  intros _ Hv enc. unfold enc.
  assert (Hraise :
    LabelEncoder.transform1 (LabelEncoder.fit vals) v = Raise ValueError).
  { apply transform1_unseen. by rewrite elem_of_classes_fit. }
  split; [|split].
  - intros Hu.
    destruct (transform1_seen (LabelEncoder.fit vals) "Unknown") as [c Hc].
    { by apply elem_of_classes_fit. }
    exists c. split; [by apply transform1_Ok|]. split.
    + by rewrite transform_singleton, Hc.
    + by rewrite encode_feature_unfold, Hraise, Hc.
  - intros Hu. rewrite encode_feature_unfold, Hraise.
    rewrite transform1_unseen; [done|]. by rewrite elem_of_classes_fit.
  - apply encode_feature_total.
Qed.

Lemma encode_unseen_fallback_witness :
  let vals := ["Wood"; "Metal"; "Wood"; "Unknown"] in
  vals ≠ [] ∧ ("Tile" ∉ vals) ∧
  ∃ c, encode_feature "Tile" (LabelEncoder.fit vals) "roof_construction" = Ok c.
Proof.
  intros vals.
  assert (H1 : vals ≠ []) by done.
  assert (H2 : "Tile" ∉ vals) by (apply (bool_decide_unpack _); vm_compute; exact I).
  split; [exact H1|]. split; [exact H2|].
  exact (proj2 (proj2 (encode_unseen_fallback vals "Tile" "roof_construction" H1 H2))).
Defined.

(** Scenario 1 of the specification, by evaluation. *)
Example scenario_unseen_tile :
  let enc := LabelEncoder.fit ["Wood"; "Metal"; "Wood"; "Unknown"] in
  LabelEncoder.classes_ enc = ["Metal"; "Unknown"; "Wood"] ∧
  encode_feature "Tile" enc "roof_construction" = Ok 1 ∧
  encode_feature "Unknown" enc "roof_construction" = Ok 1.
Proof. vm_compute. done. Qed.

(** Without ["Unknown"] among the fitted values the fallback is code [0],
    here the code of ["Metal"]; an encoder fitted on no value at all falls
    back to [0] as well. *)
Example scenario_unseen_default :
  let enc := LabelEncoder.fit ["Wood"; "Metal"] in
  encode_feature "Tile" enc "roof_construction" = Ok 0 ∧
  encode_feature "Metal" enc "roof_construction" = Ok 0 ∧
  encode_feature "Tile" (LabelEncoder.fit []) "roof_construction" = Ok 0.
Proof. vm_compute. done. Qed.

(** C5. For an encoder fitted on a column whose missing values were replaced
    by ["Unknown"], encoding is, on the fitted values, a bijection onto the
    codes [0 .. k-1], where [k] is the number of distinct fitted values:
    every fitted value gets a code below [k], two fitted values with the
    same code are equal, and every code below [k] is the code of a fitted
    value. This holds for the encoder's own [transform] and for
    [encode_feature]. *)
Theorem fit_codes_dense_injective (raw : list (option string))
    (feature_name : string) :
  let vals := fillna "Unknown" raw in
  let enc := LabelEncoder.fit vals in
  let k := length (remove_dups vals) in
  let code v c :=
    LabelEncoder.transform enc [v] = Ok [c] ∧
    encode_feature v enc feature_name = Ok c in
  (∀ v, v ∈ vals → ∃ c, code v c ∧ c < k) ∧
  (∀ v1 v2 c, v1 ∈ vals → v2 ∈ vals → code v1 c → code v2 c → v1 = v2) ∧
  (∀ c, c < k → ∃ v, v ∈ vals ∧ code v c).
Proof.
  intros vals enc k code. unfold code, k, enc. clear code k enc.
  set (enc := LabelEncoder.fit vals).
  set (code v c := LabelEncoder.transform enc [v] = Ok [c] ∧
                   encode_feature v enc feature_name = Ok c).
  assert (Hcode : ∀ v c, LabelEncoder.transform1 enc v = Ok c → code v c).
  { intros v c Hc. split; [by rewrite transform_singleton, Hc|].
    by apply encode_feature_seen. }
  assert (Hinv : ∀ v c, code v c → LabelEncoder.transform1 enc v = Ok c).
  { intros v c [Ht _]. rewrite transform_singleton in Ht.
    destruct (LabelEncoder.transform1 enc v); by inversion Ht. }
  split; [|split].
  - intros v Hv. destruct (transform1_seen enc v) as [c Hc].
    { by apply elem_of_classes_fit. }
    exists c. split; [by apply Hcode|].
    apply transform1_Ok, lookup_lt_Some in Hc.
    by rewrite <-length_classes_fit.
  - intros v1 v2 c _ _ H1%Hinv%transform1_Ok H2%Hinv%transform1_Ok. congruence.
  - intros c Hc. rewrite <-length_classes_fit in Hc.
    destruct (lookup_lt_is_Some_2 _ _ Hc) as [v Hv]. exists v. split.
    + apply elem_of_classes_fit. by eapply list_elem_of_lookup_2.
    + apply Hcode. unfold LabelEncoder.transform1, enc.
      by rewrite (index_of_NoDup v _ c (NoDup_classes_fit vals) Hv).
Qed.

Lemma fit_codes_dense_injective_witness :
  let raw := [Some "Wood"; None; Some "Metal"; Some "Wood"] in
  let enc := LabelEncoder.fit (fillna "Unknown" raw) in
  ∃ v, v ∈ fillna "Unknown" raw ∧ encode_feature v enc "roof_construction" = Ok 2.
Proof.
  intros raw enc.
  destruct (fit_codes_dense_injective raw "roof_construction") as (_ & _ & H).
  destruct (H 2) as (v & Hv & _ & Hc).
  - vm_compute. lia.
  - exists v. split; [exact Hv | exact Hc].
Defined.

(** ** The selected rows and the target *)

Lemma where_damage_true (r : Row) :
  where_damage r = true ↔ ∃ d, damage r = Some d ∧ d ≠ "Inaccessible".
Proof.
  unfold where_damage. destruct (damage r) as [d|].
  - rewrite bool_decide_eq_true. split.
    + intros Hd. by exists d.
    + by intros (d' & [= <-] & Hd).
  - split; [done|]. by intros (d & Hd & _).
Qed.

Lemma elem_of_select_wildfires (wildfires : list Row) (r : Row) :
  r ∈ select_wildfires wildfires ↔ r ∈ wildfires ∧ where_damage r = true.
Proof. unfold select_wildfires. rewrite list_elem_of_filter. tauto. Qed.

Lemma select_wildfires_idemp (wildfires : list Row) :
  select_wildfires (select_wildfires wildfires) = select_wildfires wildfires.
Proof.
  unfold select_wildfires. rewrite list_filter_filter.
  apply list_filter_iff. tauto.
Qed.

Lemma select_wildfires_app (l1 l2 : list Row) :
  select_wildfires (l1 ++ l2)%list
  = (select_wildfires l1 ++ select_wildfires l2)%list.
Proof. apply filter_app. Qed.

(** C8. The derived target of a row is 1 exactly when its damage is
    ["Destroyed (>50%)"], and 0 for every other damage value (NULL
    included). This holds for every row, hence for every row left by the
    exclusion of inaccessible rows. *)
Theorem target_iff_destroyed (r : Row) :
  (target r = 1%Z ↔ damage r = Some "Destroyed (>50%)") ∧
  (target r = 0%Z ↔ damage r ≠ Some "Destroyed (>50%)").
Proof. unfold target. case_decide; naive_solver. Qed.

Example target_examples :
  target {| damage := Some "Destroyed (>50%)"; cells := ∅ |} = 1%Z ∧
  target {| damage := Some "Major (26-50%)"; cells := ∅ |} = 0%Z ∧
  target {| damage := Some "No Damage"; cells := ∅ |} = 0%Z ∧
  target {| damage := None; cells := ∅ |} = 0%Z.
Proof. vm_compute. done. Qed.

Lemma select_wildfires_drop (l1 l2 : list Row) (r : Row) :
  damage r = Some "Inaccessible" →
  select_wildfires (l1 ++ r :: l2)%list = select_wildfires (l1 ++ l2)%list.
Proof.
  intros Hr. rewrite !select_wildfires_app. f_equal.
  unfold select_wildfires. apply filter_cons_False.
  unfold where_damage. rewrite Hr. rewrite bool_decide_eq_true. by intros [].
Qed.

(** C4. The rows used for training and the rows used for the destruction
    statistics are those of [select_wildfires]: no row among them has damage
    ["Inaccessible"], every inaccessible row of the table is left out, and
    the whole [train] step (its outcome, the artifacts it stores and the
    statistics it computes) is unchanged when the inaccessible rows are
    removed from the table beforehand. *)
Theorem inaccessible_excluded {float estimator rng : Type}
    (sk : Sklearn.t float estimator rng) (wildfires : list Row) :
  (∀ r, r ∈ select_wildfires wildfires → damage r ≠ Some "Inaccessible") ∧
  (∀ r, damage r = Some "Inaccessible" → r ∉ select_wildfires wildfires) ∧
  train sk wildfires = train sk (select_wildfires wildfires) ∧
  (∀ l1 l2 r, damage r = Some "Inaccessible" → wildfires = (l1 ++ r :: l2)%list →
     train sk wildfires = train sk (l1 ++ l2)%list).
Proof.
  assert (Hsel : ∀ r, r ∈ select_wildfires wildfires →
                      damage r ≠ Some "Inaccessible").
  { intros r [_ Hr]%elem_of_select_wildfires Hd.
    apply where_damage_true in Hr as (d & Hd' & Hne). congruence. }
  split; [exact Hsel|]. split; [|split].
  - intros r Hd Hin. by apply (Hsel r).
  - unfold train. by rewrite select_wildfires_idemp.
  - intros l1 l2 r Hr ->. unfold train. by rewrite select_wildfires_drop.
Qed.

Example select_wildfires_example :
  let r d := {| damage := d; cells := {[ "county" := "Butte" ]} |} in
  select_wildfires [r (Some "Inaccessible"); r (Some "No Damage"); r None;
                    r (Some "Destroyed (>50%)")]
  = [r (Some "No Damage"); r (Some "Destroyed (>50%)")].
Proof. vm_compute. done. Qed.

(** ** Destruction statistics *)

Lemma target_bounds (r : Row) : (0 ≤ target r ≤ 1)%Z.
Proof. unfold target. case_decide; lia. Qed.

Lemma sum_Z_bounds (xs : list Z) :
  Forall (λ x, (0 ≤ x ≤ 1)%Z) xs → (0 ≤ sum_Z xs ≤ Z.of_nat (length xs))%Z.
Proof.
  induction 1 as [|x xs Hx _ IH]; [simpl; lia|].
  unfold sum_Z in *. cbn [foldr length]. rewrite Nat2Z.inj_succ. lia.
Qed.

Lemma mean_bounds (xs : list Z) :
  Forall (λ x, (0 ≤ x ≤ 1)%Z) xs → (0 <= mean xs)%Q ∧ (mean xs <= 1)%Q.
Proof.
  intros H%sum_Z_bounds. unfold mean.
  destruct (length xs) as [|n].
  - replace (sum_Z xs) with 0%Z by lia. by vm_compute.
  - change (Z.of_nat (S n)) with (Z.pos (Pos.of_succ_nat n)) in *.
    unfold Qdiv, Qinv, Qmult, Qle, inject_Z. simpl. lia.
Qed.

Lemma foldl_insert_lookup {A} (f : string → A) (cols : list string)
    (m : gmap string A) (col : string) :
  foldl (λ acc c, <[c := f c]> acc) m cols !! col =
  if decide (col ∈ cols) then Some (f col) else m !! col.
Proof.
  revert m. induction cols as [|c cols IH]; intros m; cbn [foldl].
  - destruct (decide (col ∈ [])) as [H|_]; [by apply elem_of_nil in H|done].
  - rewrite IH.
    destruct (decide (col ∈ cols)) as [Hin|Hnin];
      destruct (decide (col ∈ c :: cols)) as [Hin'|Hnin'].
    + done.
    + destruct Hnin'. by right.
    + apply elem_of_cons in Hin' as [->|?]; [|done]. by rewrite lookup_insert_eq.
    + rewrite lookup_insert_ne; [done|]. intros ->. apply Hnin'. left.
Qed.

Lemma feature_value_stats_lookup (df : list Row) (col : string)
    (stats : list FeatureValueStat) :
  feature_value_stats df !! col = Some stats →
  col ∈ feature_cols ∧ stats = reliable (groupby_agg df col).
Proof.
  unfold feature_value_stats.
  rewrite (foldl_insert_lookup (λ c, reliable (groupby_agg df c))).
  case_decide; [|by rewrite lookup_empty]. by intros [= <-].
Qed.

Lemma elem_of_groupby_agg (df : list Row) (col : string) (s : FeatureValueStat) :
  s ∈ groupby_agg df col →
  count s = length (group df col (value s)) ∧
  destruction_rate s = mean (target <$> group df col (value s)) ∧
  ∃ r, r ∈ df ∧ cells r !! col = Some (value s).
Proof.
  unfold groupby_agg. intros (v & -> & Hv)%list_elem_of_fmap. simpl.
  split; [done|]. split; [done|].
  rewrite merge_sort_Permutation, elem_of_remove_dups in Hv.
  apply list_elem_of_omap in Hv as (o & Ho & Hid). simpl in Hid. subst o.
  unfold column in Ho. apply list_elem_of_fmap in Ho as (r & Hr & Hin). eauto.
Qed.

(** C6. Every statistic emitted for a feature column has a sample count of
    at least 20; its count is the number of rows sharing its raw value and
    its destruction rate is the mean of the target over those rows, which
    lies between 0 and 1. A value shared by fewer than 20 rows has no
    entry at all. *)
Theorem stats_reliable_and_bounded (df_orig : list Row) (col : string)
    (stats : list FeatureValueStat) :
  feature_value_stats df_orig !! col = Some stats →
  (∀ s, s ∈ stats →
     20 ≤ count s ∧
     count s = length (group df_orig col (value s)) ∧
     destruction_rate s = mean (target <$> group df_orig col (value s)) ∧
     (0 <= destruction_rate s)%Q ∧ (destruction_rate s <= 1)%Q) ∧
  (∀ v, length (group df_orig col v) < 20 → ∀ s, s ∈ stats → value s ≠ v).
Proof.
  intros [_ ->]%feature_value_stats_lookup.
  assert (Hs : ∀ s, s ∈ reliable (groupby_agg df_orig col) →
     20 ≤ count s ∧
     count s = length (group df_orig col (value s)) ∧
     destruction_rate s = mean (target <$> group df_orig col (value s))).
  { intros s [Hc Hin]%list_elem_of_filter.
    apply elem_of_groupby_agg in Hin as (? & ? & _). done. }
  split.
  - intros s Hin. destruct (Hs s Hin) as (Hc & Hn & Hr).
    repeat split; try done; rewrite Hr; apply mean_bounds;
      apply Forall_fmap, Forall_forall; intros r _; apply target_bounds.
  - intros v Hv s Hin Heq. subst v. destruct (Hs s Hin) as (Hc & Hn & _). lia.
Qed.

Lemma stats_reliable_and_bounded_witness :
  let df :=
    (replicate 25 (ToySklearn.row "Destroyed (>50%)" "Wood" "Butte") ++
     replicate 5 (ToySklearn.row "No Damage" "Wood" "Butte") ++
     replicate 5 (ToySklearn.row "Destroyed (>50%)" "Tile" "Napa"))%list in
  let stats :=
    [ {| value := "Wood"; destruction_rate := (25 # 30)%Q; count := 30 |} ] in
  feature_value_stats df !! "roof_construction" = Some stats ∧
  ∀ s, s ∈ stats → 20 ≤ count s.
Proof.
  intros df stats.
  assert (H : feature_value_stats df !! "roof_construction" = Some stats)
    by (vm_compute; reflexivity).
  split; [exact H|].
  intros s Hs.
  exact (proj1 (proj1 (stats_reliable_and_bounded df "roof_construction" stats H)
                  s Hs)).
Defined.

(** Scenario 2 of the specification: 100 rows, 40 of them destroyed; 30 have
    a wood roof, 25 of these destroyed; a value carried by only 5 rows has
    no entry. *)
Example scenario_wood_roof :
  let df :=
    (replicate 25 (ToySklearn.row "Destroyed (>50%)" "Wood" "Butte") ++
     replicate 5 (ToySklearn.row "No Damage" "Wood" "Butte") ++
     replicate 5 (ToySklearn.row "Destroyed (>50%)" "Tile" "Napa") ++
     replicate 10 (ToySklearn.row "Destroyed (>50%)" "Asphalt" "Napa") ++
     replicate 55 (ToySklearn.row "No Damage" "Asphalt" "Napa"))%list in
  length df = 100 ∧ sum_Z (target <$> df) = 40%Z ∧
  feature_value_stats df !! "roof_construction" =
    Some [ {| value := "Asphalt"; destruction_rate := (10 # 65)%Q; count := 65 |};
           {| value := "Wood"; destruction_rate := (25 # 30)%Q; count := 30 |} ].
Proof. vm_compute. done. Qed.

(** ** The feature vector and the prediction *)

Lemma encode_columns_ext (encoders : gmap string LabelEncoder.t)
    (f1 f2 : gmap string string) (cols : list string) (acc : list nat) :
  (∀ col, col ∈ cols → f1 !! col = f2 !! col) →
  encode_columns encoders f1 cols acc = encode_columns encoders f2 cols acc.
Proof.
  revert acc. induction cols as [|col cols IH]; intros acc Hagree; [done|].
  cbn [encode_columns]. unfold dict_get.
  rewrite (Hagree col) by left.
  destruct (dict_getitem encoders col) as [enc|e]; [|done]. cbn.
  destruct (encode_feature _ enc col) as [c|e]; [|done]. cbn.
  apply IH. intros c' Hc'. apply Hagree. by right.
Qed.

Lemma encode_columns_Ok (encoders : gmap string LabelEncoder.t)
    (features : gmap string string) (cols : list string) (acc : list nat) :
  (∀ col, col ∈ cols → is_Some (encoders !! col)) →
  ∃ codes,
    encode_columns encoders features cols acc = Ok (acc ++ codes)%list ∧
    Forall2 (λ col c, ∃ enc, encoders !! col = Some enc ∧
               encode_feature (default "Unknown" (features !! col)) enc col = Ok c)
            cols codes.
Proof.
  revert acc. induction cols as [|col cols IH]; intros acc Henc.
  - exists []. split; [by rewrite app_nil_r | constructor].
  - destruct (Henc col) as [enc Hcol]; [left|].
    destruct (encode_feature_total (default "Unknown" (features !! col)) enc col)
      as [c Hc].
    destruct (IH (acc ++ [c])%list) as (codes & Hrun & Hall).
    { intros c' Hc'. apply Henc. by right. }
    exists (c :: codes). split.
    + cbn [encode_columns]. unfold dict_getitem, dict_get. rewrite Hcol. cbn.
      rewrite Hc. cbn. rewrite Hrun. by rewrite <-app_assoc.
    + constructor; [eauto | done].
Qed.


(** C2. Given an encoder for each of the fixed feature columns, the loop of
    [predict_destruction] builds, for every feature mapping, a vector as
    long as the list of feature columns; its i-th entry is the encoding, by
    the i-th column's encoder, of the value the mapping gives to the i-th
    column, and of ["Unknown"] when the mapping has no such column. *)
Theorem feature_vector_shape (encoders : gmap string LabelEncoder.t)
    (cols : list string) (features : gmap string string) :
  (∀ col, col ∈ cols → is_Some (encoders !! col)) →
  ∃ X, encode_columns encoders features cols [] = Ok X ∧
       length X = length cols ∧
       ∀ i col, cols !! i = Some col →
         ∃ enc c, encoders !! col = Some enc ∧ X !! i = Some c ∧
           encode_feature (default "Unknown" (features !! col)) enc col = Ok c ∧
           (features !! col = None → encode_feature "Unknown" enc col = Ok c).
Proof.
  intros Henc.
  destruct (encode_columns_Ok encoders features cols [] Henc)
    as (X & Hrun & Hall).
  exists X. split; [done|]. split; [symmetry; by eapply Forall2_length|].
  intros i col Hi.
  destruct (Forall2_lookup_l _ _ _ _ _ Hall Hi) as (c & Hc & enc & Hcol & Hcode).
  exists enc, c. repeat split; try done.
  intros Hnone. by rewrite Hnone in Hcode.
Qed.

Lemma feature_vector_shape_witness :
  let encoders : gmap string LabelEncoder.t :=
    {[ "roof_construction" := LabelEncoder.fit ["Wood"; "Metal"; "Unknown"];
       "county" := LabelEncoder.fit ["Napa"; "Butte"] ]} in
  let cols := ["roof_construction"; "county"] in
  (∀ col, col ∈ cols → is_Some (encoders !! col)) ∧
  ∃ X, encode_columns encoders ∅ cols [] = Ok X ∧ length X = 2.
Proof.
  intros encoders cols.
  assert (H : ∀ col, col ∈ cols → is_Some (encoders !! col)).
  { intros col Hcol. unfold cols in Hcol.
    apply elem_of_cons in Hcol as [->|Hcol]; [by eexists|].
    apply elem_of_cons in Hcol as [->|Hcol]; [by eexists|].
    by apply elem_of_nil in Hcol. }
  split; [exact H|].
  destruct (feature_vector_shape encoders cols ∅ H) as (X & HX & Hlen & _).
  exists X. split; [exact HX | exact Hlen].
Defined.

Example feature_vector_examples :
  let encoders : gmap string LabelEncoder.t :=
    {[ "roof_construction" := LabelEncoder.fit ["Wood"; "Metal"; "Unknown"];
       "county" := LabelEncoder.fit ["Napa"; "Butte"] ]} in
  let cols := ["roof_construction"; "county"] in
  encode_columns encoders ∅ cols [] = Ok [1; 0] ∧
  encode_columns encoders {[ "county" := "Napa" ]} cols [] = Ok [1; 1] ∧
  encode_columns encoders {[ "county" := "Napa"; "roof_construction" := "Wood";
                             "eaves" := "Enclosed" ]} cols [] = Ok [2; 1] ∧
  encode_columns encoders ∅ ["roof_construction"; "eaves"] [] = Raise KeyError.
Proof. vm_compute. done. Qed.

(** C10. Two feature mappings that agree on every column of the fixed
    feature-column order (same value, or both absent) get the same
    prediction; keys outside that order have no effect. *)
Theorem predict_depends_on_feature_cols {float estimator rng : Type}
    (sk : Sklearn.t float estimator rng) (model : estimator)
    (encoders : gmap string LabelEncoder.t) (cols : list string)
    (f1 f2 : gmap string string) :
  (∀ col, col ∈ cols → f1 !! col = f2 !! col) →
  predict_destruction sk model encoders cols f1
  = predict_destruction sk model encoders cols f2.
Proof.
  intros Hagree. unfold predict_destruction.
  by rewrite (encode_columns_ext encoders f1 f2 cols [] Hagree).
Qed.

Lemma predict_depends_on_feature_cols_witness :
  let encoders : gmap string LabelEncoder.t :=
    {[ "roof_construction" := LabelEncoder.fit ["Wood"; "Metal"; "Unknown"];
       "county" := LabelEncoder.fit ["Napa"; "Butte"] ]} in
  let cols := ["roof_construction"; "county"] in
  let f1 : gmap string string := {[ "county" := "Napa" ]} in
  let f2 : gmap string string := {[ "county" := "Napa"; "eaves" := "Enclosed" ]} in
  (∀ col, col ∈ cols → f1 !! col = f2 !! col) ∧
  predict_destruction ToySklearn.sk (1 # 3)%Q encoders cols f1
  = predict_destruction ToySklearn.sk (1 # 3)%Q encoders cols f2.
Proof.
  intros encoders cols f1 f2.
  assert (H : ∀ col, col ∈ cols → f1 !! col = f2 !! col).
  { intros col Hcol. unfold cols in Hcol.
    apply elem_of_cons in Hcol as [->|Hcol]; [by vm_compute|].
    apply elem_of_cons in Hcol as [->|Hcol]; [by vm_compute|].
    by apply elem_of_nil in Hcol. }
  split; [exact H|].
  exact (predict_depends_on_feature_cols ToySklearn.sk (1 # 3)%Q encoders cols
           f1 f2 H).
Defined.

(** A key that is not a feature column can be added, changed or removed
    without changing the prediction. *)
Corollary predict_ignores_extra_key {float estimator rng : Type}
    (sk : Sklearn.t float estimator rng) (model : estimator)
    (encoders : gmap string LabelEncoder.t) (cols : list string)
    (features : gmap string string) (k v : string) :
  k ∉ cols →
  predict_destruction sk model encoders cols (<[k := v]> features)
  = predict_destruction sk model encoders cols features.
Proof.
  intros Hk. unfold predict_destruction.
  rewrite (encode_columns_ext encoders (<[k := v]> features) features cols []);
    [done|].
  intros col Hcol. apply lookup_insert_ne. by intros ->.
Qed.

(** C9. For a fixed classifier (one whose [predict_proba] does not depend on
    the ambient state), fixed encoders and a fixed column order, the outcome
    of [predict_destruction] on a feature mapping is the same from every
    ambient state; in particular a second call, made from the state the
    first call left behind, returns the same probability. *)
Theorem predict_idempotent {float estimator rng : Type}
    (sk : Sklearn.t float estimator rng) (model : estimator)
    (encoders : gmap string LabelEncoder.t) (cols : list string)
    (features : gmap string string) :
  (∀ X, ambient_free (Sklearn.predict_proba sk model X)) →
  ambient_free (predict_destruction sk model encoders cols features) ∧
  ∀ g, let first := predict_destruction sk model encoders cols features g in
       let second := predict_destruction sk model encoders cols features first.2 in
       second.1 = first.1.
Proof.
  intros Hpure.
  assert (Hfree : ambient_free (predict_destruction sk model encoders cols features)).
  { intros g g'. unfold predict_destruction, mbind, M_bind, lift.
    destruct (encode_columns encoders features cols []) as [ef|e]; [|done].
    specialize (Hpure [ef] g g').
    destruct (Sklearn.predict_proba sk model [ef] g) as [r1 g1].
    destruct (Sklearn.predict_proba sk model [ef] g') as [r2 g2].
    simpl in Hpure. subst r2. by destruct r1. }
  split; [exact Hfree|]. intros g. simpl. apply Hfree.
Qed.

Lemma ToySklearn_predict_proba_ambient_free (p : Q) (X : list (list nat)) :
  ambient_free (Sklearn.predict_proba ToySklearn.sk p X).
Proof. intros g g'. reflexivity. Qed.

Lemma predict_idempotent_witness :
  let encoders : gmap string LabelEncoder.t :=
    {[ "roof_construction" := LabelEncoder.fit ["Wood"; "Metal"; "Unknown"];
       "county" := LabelEncoder.fit ["Napa"; "Butte"] ]} in
  let cols := ["roof_construction"; "county"] in
  let predict :=
    predict_destruction ToySklearn.sk (1 # 3)%Q encoders cols
      {[ "county" := "Napa" ]} in
  (∀ X, ambient_free (Sklearn.predict_proba ToySklearn.sk (1 # 3)%Q X)) ∧
  (predict (predict 0).2).1 = (predict 0).1.
Proof.
  intros encoders cols predict.
  split; [exact (ToySklearn_predict_proba_ambient_free (1 # 3)%Q)|].
  exact (proj2 (predict_idempotent ToySklearn.sk (1 # 3)%Q encoders cols
                  {[ "county" := "Napa" ]}
                  (ToySklearn_predict_proba_ambient_free (1 # 3)%Q)) 0).
Defined.

Example predict_example :
  let encoders : gmap string LabelEncoder.t :=
    {[ "roof_construction" := LabelEncoder.fit ["Wood"; "Metal"; "Unknown"];
       "county" := LabelEncoder.fit ["Napa"; "Butte"] ]} in
  predict_destruction ToySklearn.sk (1 # 3)%Q encoders
    ["roof_construction"; "county"] {[ "county" := "Napa" ]} 0
  = (Ok (1 # 3)%Q, 0).
Proof. vm_compute. done. Qed.

(** ** The [train] step *)

Lemma mapM_result_total {A B} (f : A → result B) (xs : list A) :
  (∀ x, x ∈ xs → ∃ y, f x = Ok y) →
  ∃ ys, mapM f xs = Ok ys ∧ length ys = length xs.
Proof.
  induction xs as [|x xs IH]; intros Hf.
  - by exists [].
  - destruct (Hf x) as [y Hy]; [left|].
    destruct IH as (ys & Hys & Hlen).
    { intros x' Hx'. apply Hf. by right. }
    exists (y :: ys). split; [|by rewrite !length_cons, Hlen].
    cbn. rewrite Hy. cbn. by rewrite Hys.
Qed.

Lemma fit_transform_Ok (y : list string) :
  ∃ codes, LabelEncoder.fit_transform y = (LabelEncoder.fit y, Ok codes) ∧
           length codes = length y.
Proof.
  unfold LabelEncoder.fit_transform, LabelEncoder.transform.
  destruct (mapM_result_total (LabelEncoder.transform1 (LabelEncoder.fit y)) y)
    as (codes & -> & Hlen); [|eauto].
  intros v Hv. apply transform1_seen. by apply elem_of_classes_fit.
Qed.

Lemma fit_encoders_Ok (cols : list string) (df : list Row)
    (encoded0 : gmap string (list nat)) (encoders0 : gmap string LabelEncoder.t) :
  ∃ encoded encoders,
    fit_encoders cols df encoded0 encoders0 = Ok (encoded, encoders) ∧
    (∀ c, c ∈ cols ∨ is_Some (encoded0 !! c) → is_Some (encoded !! c)) ∧
    (∀ c, c ∈ cols ∨ is_Some (encoders0 !! c) → is_Some (encoders !! c)).
Proof.
  revert encoded0 encoders0.
  induction cols as [|col cols IH]; intros encoded0 encoders0.
  - exists encoded0, encoders0. split; [done|].
    split; intros c [Hc|Hc]; try done; by apply elem_of_nil in Hc.
  - cbn [fit_encoders].
    destruct (fit_transform_Ok (fillna "Unknown" (column col df)))
      as (codes & -> & _). cbn.
    destruct (IH (<[col := codes]> encoded0)
                 (<[col := LabelEncoder.fit (fillna "Unknown" (column col df))]>
                    encoders0))
      as (encoded & encoders & -> & H1 & H2).
    exists encoded, encoders. split; [done|].
    split; intros c Hc.
    + apply H1. destruct Hc as [[->|Hc]%elem_of_cons|Hc]; [right|by left|right].
      * by rewrite lookup_insert_eq.
      * rewrite lookup_insert. by case_decide.
    + apply H2. destruct Hc as [[->|Hc]%elem_of_cons|Hc]; [right|by left|right].
      * by rewrite lookup_insert_eq.
      * rewrite lookup_insert. by case_decide.
Qed.

Lemma select_columns_Ok (cols : list string) (n : nat)
    (encoded : gmap string (list nat)) :
  (∀ c, c ∈ cols → is_Some (encoded !! c)) →
  ∃ X, select_columns cols n encoded = Ok X ∧ length X = n.
Proof.
  intros Hdom. unfold select_columns.
  destruct (mapM_result_total (dict_getitem encoded) cols) as (columns & -> & _).
  { intros c [x Hx]%Hdom. exists x. unfold dict_getitem. by rewrite Hx. }
  eexists. split; [done|]. unfold frame_rows.
  by rewrite length_fmap, length_seq.
Qed.

Lemma M_bind_lift_Ok {S A B} (a : A) (f : A → M S B) (st : S) :
  (lift (Ok a) ≫= f) st = f a st.
Proof. reflexivity. Qed.

Lemma M_bind_lift {S A B} (r : result A) (f : A → M S B) (st : S) :
  (lift r ≫= f) st =
  match r with
  | Ok a => f a st
  | Raise e => (Raise e, st)
  end.
Proof. by destruct r. Qed.

Lemma M_bind_on_snd {S1 S2 A B} (m : M S2 A) (f : A → M (S1 * S2) B)
    (s : S1) (g : S2) :
  (on_snd m ≫= f) (s, g) =
  match m g with
  | (Ok a, g') => f a (s, g')
  | (Raise e, g') => (Raise e, (s, g'))
  end.
Proof.
  unfold mbind, M_bind, on_snd. simpl. by destruct (m g) as [[a|e] g'].
Qed.

Lemma distinct_subseteq {A} `{EqDecision A} (l1 l2 : list A) :
  l1 ⊆ l2 → length (remove_dups l1) ≤ length (remove_dups l2).
Proof.
  intros Hsub. apply submseteq_length, NoDup_submseteq.
  - apply NoDup_remove_dups.
  - intros x. rewrite !elem_of_remove_dups. apply Hsub.
Qed.

(** When the library behaves as scikit-learn does (a split returns training
    labels drawn from the labels it was given, and fitting the classifier
    raises when its labels have fewer than two distinct classes), [train]
    raises on a table whose selected rows have fewer than two distinct
    target classes; the exception is the one raised by the split or by the
    fit, and [self] is left as it was. *)
Corollary train_single_class_fails {float estimator rng : Type}
    (sk : Sklearn.t float estimator rng) :
  (∀ X y ts rs st g X_train X_test y_train y_test g',
     Sklearn.train_test_split sk X y ts rs st g
       = (Ok (X_train, X_test, y_train, y_test), g') → y_train ⊆ y) →
  (∀ n d rs X y g, length (remove_dups y) < 2 →
     ∃ e g', Sklearn.GradientBoostingClassifier_fit sk n d rs X y g = (Raise e, g')) →
  ∀ wildfires s g,
    let y := target <$> select_wildfires wildfires in
    length (remove_dups y) < 2 →
    ∃ e g',
      train sk wildfires (s, g) = (Raise e, (s, g')) ∧
      ∃ X,
        Sklearn.train_test_split sk X y (1 # 5) (Some 42%Z) (Some y) g
          = (Raise e, g') ∨
        ∃ X_train X_test y_train y_test g1,
          Sklearn.train_test_split sk X y (1 # 5) (Some 42%Z) (Some y) g
            = (Ok (X_train, X_test, y_train, y_test), g1) ∧
          Sklearn.GradientBoostingClassifier_fit sk 100 5 (Some 42%Z)
            X_train y_train g1 = (Raise e, g').
Proof.
  intros Hsplit Hfit wildfires s g y Hy. unfold train. fold y.
  destruct (fit_encoders_Ok feature_cols (select_wildfires wildfires) ∅ ∅)
    as (encoded & encoders & -> & H1 & _).
  rewrite M_bind_lift_Ok. cbn beta iota.
  destruct (select_columns_Ok feature_cols (length (select_wildfires wildfires))
              encoded) as (X & -> & _).
  { intros c Hc. apply H1. by left. }
  rewrite M_bind_lift_Ok, M_bind_on_snd.
  destruct (Sklearn.train_test_split sk X y (1 # 5) (Some 42%Z) (Some y) g)
    as [[[[[X_train X_test] y_train] y_test]|e] g1] eqn:Hs.
  - destruct (Hfit 100 5 (Some 42%Z) X_train y_train g1) as (e & g2 & Hf).
    { eapply Nat.le_lt_trans; [|exact Hy].
      apply distinct_subseteq. by eapply Hsplit. }
    rewrite M_bind_on_snd, Hf. exists e, g2. split; [done|].
    exists X. right. rewrite Hs. by exists X_train, X_test, y_train, y_test, g1.
  - exists e, g1. split; [done|]. exists X. left. by rewrite Hs.
Qed.

Lemma ToySklearn_split_labels X y ts rs st g X_train X_test y_train y_test g' :
  Sklearn.train_test_split ToySklearn.sk X y ts rs st g
    = (Ok (X_train, X_test, y_train, y_test), g') → y_train ⊆ y.
Proof.
  simpl. unfold ToySklearn.train_test_split. case_decide; [done|].
  intros [= _ _ <- _ _]. intros v Hv%subseteq_take.
  unfold ToySklearn.shuffled in Hv. destruct rs; [done|].
  destruct (Nat.even g); [done|]. by rewrite elem_of_reverse in Hv.
Qed.

Lemma ToySklearn_fit_two_classes n d rs X y g :
  length (remove_dups y) < 2 →
  ∃ e g', Sklearn.GradientBoostingClassifier_fit ToySklearn.sk n d rs X y g
          = (Raise e, g').
Proof.
  intros Hy. simpl. unfold ToySklearn.fit. case_decide; [eauto | done].
Qed.

Lemma train_single_class_fails_witness :
  let wildfires := replicate 10 (ToySklearn.row "Destroyed (>50%)" "Wood" "Butte") in
  length (remove_dups (target <$> select_wildfires wildfires)) < 2 ∧
  ∃ e g', train ToySklearn.sk wildfires (no_artifacts, 0) = (Raise e, (no_artifacts, g')).
Proof.
  intros wildfires.
  assert (H : length (remove_dups (target <$> select_wildfires wildfires)) < 2)
    by (vm_compute; lia).
  split; [exact H|].
  destruct (train_single_class_fails ToySklearn.sk ToySklearn_split_labels
              ToySklearn_fit_two_classes wildfires no_artifacts 0 H)
    as (e & g' & Htrain & _).
  exists e, g'. exact Htrain.
Defined.

(** C3 (amended). [train] has no check of its own on the number of target
    classes. On every table, and so on one whose selected rows have fewer
    than two distinct target classes, it calls the library on the encoded
    frame and fails exactly when one of these raises: the split, the fit,
    [predict_proba], the selection of the class-1 column of its result, or
    [roc_auc_score]. It then raises that same exception and leaves [self] as
    it was, so no artifact is stored. When none of them raises, it stores
    the score, the importances, the model, the encoders and the feature
    columns. *)
Theorem train_fails_only_through_library {float estimator rng : Type}
    (sk : Sklearn.t float estimator rng) (wildfires : list Row)
    (s : FlowState float estimator) (g : rng) :
  let y := target <$> select_wildfires wildfires in
  let run := train sk wildfires (s, g) in
  ∃ encoders X,
    length X = length y ∧
    match Sklearn.train_test_split sk X y (1 # 5) (Some 42%Z) (Some y) g with
    | (Raise e, g1) => run = (Raise e, (s, g1))
    | (Ok (X_train, X_test, y_train, y_test), g1) =>
      match Sklearn.GradientBoostingClassifier_fit sk 100 5 (Some 42%Z)
              X_train y_train g1 with
      | (Raise e, g2) => run = (Raise e, (s, g2))
      | (Ok model, g2) =>
        match Sklearn.predict_proba sk model X_test g2 with
        | (Raise e, g3) => run = (Raise e, (s, g3))
        | (Ok proba, g3) =>
          match mapM (λ row, getitem row 1) proba with
          | Raise e => run = (Raise e, (s, g3))
          | Ok y_pred_proba =>
            match Sklearn.roc_auc_score sk y_test y_pred_proba g3 with
            | (Raise e, g4) => run = (Raise e, (s, g4))
            | (Ok auc, g4) =>
                run =
                  (Ok (feature_value_stats (select_wildfires wildfires)),
                   ({| self_auc_score := Some auc;
                       self_feature_importances :=
                         Some (dict_of_pairs
                                 (zip feature_cols
                                    (Sklearn.feature_importances_ sk model)));
                       self_model := Some model;
                       self_encoders := Some encoders;
                       self_feature_cols := Some feature_cols |}, g4))
            end
          end
        end
      end
    end.
Proof.
  intros y run. unfold run, train. fold y.
  destruct (fit_encoders_Ok feature_cols (select_wildfires wildfires) ∅ ∅)
    as (encoded & encoders & -> & H1 & _).
  rewrite M_bind_lift_Ok. cbn beta iota.
  destruct (select_columns_Ok feature_cols (length (select_wildfires wildfires))
              encoded) as (X & -> & HX).
  { intros c Hc. apply H1. by left. }
  exists encoders, X. split; [unfold y; by rewrite length_fmap|].
  rewrite M_bind_lift_Ok, M_bind_on_snd.
  destruct (Sklearn.train_test_split sk X y (1 # 5) (Some 42%Z) (Some y) g)
    as [[[[[X_train X_test] y_train] y_test]|e] g1]; [|done].
  rewrite M_bind_on_snd.
  destruct (Sklearn.GradientBoostingClassifier_fit sk 100 5 (Some 42%Z)
              X_train y_train g1) as [[model|e] g2]; [|done].
  rewrite M_bind_on_snd.
  destruct (Sklearn.predict_proba sk model X_test g2) as [[proba|e] g3]; [|done].
  rewrite M_bind_lift.
  destruct (mapM (λ row, getitem row 1) proba) as [y_pred_proba|e]; [|done].
  rewrite M_bind_on_snd.
  by destruct (Sklearn.roc_auc_score sk y_test y_pred_proba g3) as [[auc|e] g4].
Qed.

(** The failure is not enforced by [train] itself: with a classifier and a
    metric that accept labels of a single class, [train] run on ten destroyed structures
    does not raise and stores a model. *)
Lemma train_single_class_counterexample :
  let wildfires := replicate 10 (ToySklearn.row "Destroyed (>50%)" "Wood" "Butte") in
  let run := train ToySklearn.lenient_sk wildfires (no_artifacts, 7) in
  length (remove_dups (target <$> select_wildfires wildfires)) < 2 ∧
  ¬ (∃ e s' g', run = (Raise e, (s', g'))) ∧
  self_model run.2.1 = Some (8 # 9)%Q.
Proof.
  intros wildfires run.
  split; [vm_compute; lia|]. split; [|vm_compute; reflexivity].
  assert (Hok : if run.1 is Ok _ then True else False) by (vm_compute; exact I).
  intros (e & s' & g' & Hrun). rewrite Hrun in Hok. exact Hok.
Qed.

(** Scenario 3 of the specification on the small instance: a table with only
    destroyed structures makes [train] raise and stores nothing, and so does
    an empty table; a table with both classes stores the artifacts. *)
Example train_examples :
  let destroyed := ToySklearn.row "Destroyed (>50%)" "Wood" "Butte" in
  let intact := ToySklearn.row "No Damage" "Tile" "Napa" in
  let two_class :=
    (replicate 5 destroyed ++ replicate 3 intact ++
     [ToySklearn.row "Inaccessible" "Metal" "Lake"; destroyed; intact])%list in
  let run := train ToySklearn.sk two_class (no_artifacts, 7) in
  train ToySklearn.sk (replicate 10 destroyed) (no_artifacts, 7)
    = (Raise ValueError, (no_artifacts, 7)) ∧
  train ToySklearn.sk [] (no_artifacts, 7) = (Raise ValueError, (no_artifacts, 7)) ∧
  (if run.1 is Ok _ then True else False) ∧ run.2.2 = 7 ∧
  self_auc_score run.2.1 = Some (1 # 2)%Q ∧
  self_model run.2.1 = Some (5 # 9)%Q ∧
  self_feature_cols run.2.1 = Some feature_cols ∧
  (λ m, m !! "county") <$> self_encoders run.2.1
    = Some (Some {| LabelEncoder.classes_ := ["Butte"; "Napa"] |}).
Proof.
  intros destroyed intact two_class run.
  (do 2 (split; [vm_compute; reflexivity|]); split; [vm_compute; exact I|];
  do 4 (split; [vm_compute; reflexivity|]); vm_compute; reflexivity).
Qed.


(** The encoders fitted by [train] cover the feature columns, so the vector
    built from them at inference time has one code per feature column,
    whatever the feature mapping. *)
Corollary trained_encoders_feature_vector (df : list Row)
    (features : gmap string string) :
  ∃ encoded encoders X,
    fit_encoders feature_cols df ∅ ∅ = Ok (encoded, encoders) ∧
    encode_columns encoders features feature_cols [] = Ok X ∧
    length X = 12.
Proof.
  destruct (fit_encoders_Ok feature_cols df ∅ ∅)
    as (encoded & encoders & Hfit & _ & Hdom).
  destruct (encode_columns_Ok encoders features feature_cols [])
    as (X & HX & Hall).
  { intros col Hcol. apply Hdom. by left. }
  exists encoded, encoders, X. repeat split; try done.
  by rewrite <-(Forall2_length _ _ _ Hall).
Qed.

(** What a successful run of [train] went through and stored: the encoded
    frame was split with [test_size = 0.2], [random_state = 42] and
    [stratify = y]; the classifier was fit on the training partition; the
    stored score is the AUC of the test labels against the predicted
    probabilities of class 1 on the test partition. *)
Lemma train_Ok_inv {float estimator rng : Type}
    (sk : Sklearn.t float estimator rng) (wildfires : list Row)
    (s s' : FlowState float estimator) (g g' : rng)
    (stats : gmap string (list FeatureValueStat)) :
  train sk wildfires (s, g) = (Ok stats, (s', g')) →
  let y := target <$> select_wildfires wildfires in
  ∃ X X_train X_test y_train y_test model proba y_pred_proba auc g1 g2 g3,
    length X = length y ∧
    Sklearn.train_test_split sk X y (1 # 5) (Some 42%Z) (Some y) g
      = (Ok (X_train, X_test, y_train, y_test), g1) ∧
    Sklearn.GradientBoostingClassifier_fit sk 100 5 (Some 42%Z) X_train y_train g1
      = (Ok model, g2) ∧
    Sklearn.predict_proba sk model X_test g2 = (Ok proba, g3) ∧
    mapM (λ row, getitem row 1) proba = Ok y_pred_proba ∧
    Sklearn.roc_auc_score sk y_test y_pred_proba g3 = (Ok auc, g') ∧
    self_auc_score s' = Some auc ∧
    self_feature_importances s' =
      Some (dict_of_pairs (zip feature_cols (Sklearn.feature_importances_ sk model))) ∧
    self_model s' = Some model ∧
    self_feature_cols s' = Some feature_cols ∧
    stats = feature_value_stats (select_wildfires wildfires).
Proof.
  intros Hrun y. unfold train in Hrun. fold y in Hrun.
  destruct (fit_encoders_Ok feature_cols (select_wildfires wildfires) ∅ ∅)
    as (encoded & encoders & Hfe & H1 & _).
  rewrite Hfe, M_bind_lift_Ok in Hrun. cbn beta iota in Hrun.
  destruct (select_columns_Ok feature_cols (length (select_wildfires wildfires))
              encoded) as (X & HX & Hlen).
  { intros c Hc. apply H1. by left. }
  rewrite HX, M_bind_lift_Ok, M_bind_on_snd in Hrun.
  destruct (Sklearn.train_test_split sk X y (1 # 5) (Some 42%Z) (Some y) g)
    as [[[[[X_train X_test] y_train] y_test]|e] g1] eqn:Hs; [|done].
  rewrite M_bind_on_snd in Hrun.
  destruct (Sklearn.GradientBoostingClassifier_fit sk 100 5 (Some 42%Z)
              X_train y_train g1) as [[model|e] g2] eqn:Hf; [|done].
  rewrite M_bind_on_snd in Hrun.
  destruct (Sklearn.predict_proba sk model X_test g2) as [[proba|e] g3] eqn:Hp;
    [|done].
  rewrite M_bind_lift in Hrun.
  destruct (mapM (λ row, getitem row 1) proba) as [y_pred_proba|e] eqn:Hy; [|done].
  rewrite M_bind_on_snd in Hrun.
  destruct (Sklearn.roc_auc_score sk y_test y_pred_proba g3) as [[auc|e] g4] eqn:Ha;
    [|done].
  injection Hrun as <- <- <-.
  exists X, X_train, X_test, y_train, y_test, model, proba, y_pred_proba, auc,
    g1, g2, g3.
  repeat split; try done. unfold y. by rewrite length_fmap.
Qed.

(** The refusal of a single-class table is the library's: [train] itself
    does not count classes, and with a classifier and a metric that accept
    one class it stores a model for such a table. *)
Example train_relies_on_library_check :
  let destroyed := ToySklearn.row "Destroyed (>50%)" "Wood" "Butte" in
  let run :=
    train ToySklearn.lenient_sk (replicate 10 destroyed) (no_artifacts, 7) in
  (if run.1 is Ok _ then True else False) ∧
  self_model run.2.1 = Some (8 # 9)%Q ∧ self_auc_score run.2.1 = Some (1 # 2)%Q.
Proof.
  intros destroyed run.
  (split; [vm_compute; exact I|]; split; vm_compute; reflexivity).
Qed.

(** ** Independence of [train] from the ambient generator *)

Lemma self_determined_ret {S rng A} (a : A) :
  self_determined (mret a : M (S * rng) A).
Proof. by intros s g g'. Qed.

Lemma self_determined_lift {S rng A} (r : result A) :
  self_determined (lift r : M (S * rng) A).
Proof. by intros s g g'. Qed.

Lemma self_determined_modify_fst {S rng} (f : S → S) :
  self_determined (modify_fst f : M (S * rng) unit).
Proof. by intros s g g'. Qed.

Lemma self_determined_on_snd {S rng A} (m : M rng A) :
  ambient_free m → self_determined (on_snd m : M (S * rng) A).
Proof.
  intros Hm s g g'. unfold on_snd. simpl. specialize (Hm g g').
  destruct (m g), (m g'). simpl in *. by subst.
Qed.

Lemma self_determined_bind {S rng A B} (m : M (S * rng) A)
    (f : A → M (S * rng) B) :
  self_determined m → (∀ a, self_determined (f a)) → self_determined (m ≫= f).
Proof.
  intros Hm Hf s g g'. unfold mbind, M_bind.
  destruct (Hm s g g') as [Hr Hs].
  destruct (m (s, g)) as [r1 [s1 g1]], (m (s, g')) as [r2 [s2 g2]].
  simpl in *. subst r2 s2. destruct r1 as [a|e]; [apply Hf | done].
Qed.

Lemma train_self_determined {float estimator rng : Type}
    (sk : Sklearn.t float estimator rng) (wildfires : list Row) :
  (∀ X y, ambient_free
            (Sklearn.train_test_split sk X y (1 # 5) (Some 42%Z) (Some y))) →
  (∀ X y, ambient_free
            (Sklearn.GradientBoostingClassifier_fit sk 100 5 (Some 42%Z) X y)) →
  (∀ model X, ambient_free (Sklearn.predict_proba sk model X)) →
  (∀ y_true y_score, ambient_free (Sklearn.roc_auc_score sk y_true y_score)) →
  self_determined (train sk wildfires).
Proof.
  intros Hsplit Hfit Hproba Hauc. unfold train.
  apply self_determined_bind; [apply self_determined_lift|].
  intros [encoded encoders].
  apply self_determined_bind; [apply self_determined_lift|]. intros X.
  apply self_determined_bind; [apply self_determined_on_snd, Hsplit|].
  intros [[[X_train X_test] y_train] y_test].
  apply self_determined_bind; [apply self_determined_on_snd, Hfit|]. intros model.
  apply self_determined_bind; [apply self_determined_on_snd, Hproba|]. intros proba.
  apply self_determined_bind; [apply self_determined_lift|]. intros y_pred_proba.
  apply self_determined_bind; [apply self_determined_on_snd, Hauc|]. intros auc.
  repeat (apply self_determined_bind; [apply self_determined_modify_fst|]; intros _).
  apply self_determined_ret.
Qed.

(** C7. Assume of the library that the calls [train] makes do not depend on
    the ambient generator: the split called with [test_size = 0.2],
    [random_state = 42] and [stratify] set to the target labels (the
    stratified 80%/20% split), the fit called with 100 estimators, depth 5
    and [random_state = 42], [predict_proba] and [roc_auc_score]. Then two
    runs of [train] on the same table, from any two states of the generator,
    have the same outcome and leave the same artifacts on [self]: the same
    AUC score and the same feature importances. Moreover a run that succeeds
    did split the encoded frame with exactly these arguments, and stored the
    AUC measured on the test partition and the importances of the classifier
    fit on the training partition. *)
Theorem train_deterministic {float estimator rng : Type}
    (sk : Sklearn.t float estimator rng) :
  (∀ X y, ambient_free
            (Sklearn.train_test_split sk X y (1 # 5) (Some 42%Z) (Some y))) →
  (∀ X y, ambient_free
            (Sklearn.GradientBoostingClassifier_fit sk 100 5 (Some 42%Z) X y)) →
  (∀ model X, ambient_free (Sklearn.predict_proba sk model X)) →
  (∀ y_true y_score, ambient_free (Sklearn.roc_auc_score sk y_true y_score)) →
  ∀ wildfires s g1 g2,
    let run1 := train sk wildfires (s, g1) in
    let run2 := train sk wildfires (s, g2) in
    let y := target <$> select_wildfires wildfires in
    (run1.1 = run2.1 ∧
     self_auc_score run1.2.1 = self_auc_score run2.2.1 ∧
     self_feature_importances run1.2.1 = self_feature_importances run2.2.1 ∧
     run1.2.1 = run2.2.1) ∧
    (∀ stats, run1.1 = Ok stats →
       ∃ X X_train X_test y_train y_test model y_pred_proba auc g g' g'',
         length X = length y ∧
         Sklearn.train_test_split sk X y (1 # 5) (Some 42%Z) (Some y) g1
           = (Ok (X_train, X_test, y_train, y_test), g) ∧
         Sklearn.GradientBoostingClassifier_fit sk 100 5 (Some 42%Z)
           X_train y_train g = (Ok model, g') ∧
         Sklearn.roc_auc_score sk y_test y_pred_proba g'' = (Ok auc, run1.2.2) ∧
         self_auc_score run1.2.1 = Some auc ∧
         self_feature_importances run1.2.1 =
           Some (dict_of_pairs
                   (zip feature_cols (Sklearn.feature_importances_ sk model)))).
Proof.
  intros Hsplit Hfit Hproba Hauc wildfires s g1 g2 run1 run2 y.
  split.
  - destruct (train_self_determined sk wildfires Hsplit Hfit Hproba Hauc s g1 g2)
      as [Hr Hs].
    fold run1 run2 in Hr, Hs. by rewrite Hr, Hs.
  - intros stats Hstats.
    destruct run1 as [r [s' g']] eqn:Hrun. simpl in Hstats. subst r.
    destruct (train_Ok_inv sk wildfires s s' g1 g' stats Hrun)
      as (X & X_train & X_test & y_train & y_test & model & proba
          & y_pred_proba & auc & g & g0 & g'' & HX & Hs & Hf & _ & _ & Ha
          & Hsa & Hsi & _).
    exists X, X_train, X_test, y_train, y_test, model, y_pred_proba, auc,
      g, g0, g''.
    simpl. done.
Qed.

Lemma ToySklearn_seeded_split X y ts seed st :
  ambient_free (Sklearn.train_test_split ToySklearn.sk X y ts (Some seed) st).
Proof.
  intros g g'. simpl. unfold ToySklearn.train_test_split. by case_decide.
Qed.

Lemma ToySklearn_seeded_fit n d seed X y :
  ambient_free (Sklearn.GradientBoostingClassifier_fit ToySklearn.sk n d (Some seed) X y).
Proof. intros g g'. simpl. unfold ToySklearn.fit. by case_decide. Qed.

Lemma ToySklearn_roc_auc_score y_true y_score :
  ambient_free (Sklearn.roc_auc_score ToySklearn.sk y_true y_score).
Proof. intros g g'. simpl. unfold ToySklearn.roc_auc_score. by case_decide. Qed.

(** Without a [random_state] the small instance does depend on the
    generator, so the seeds passed by [train] matter. *)
Example ToySklearn_unseeded_fit :
  (ToySklearn.fit 100 5 None [] [1; 0]%Z 0).1 = Ok (1 # 3)%Q ∧
  (ToySklearn.fit 100 5 None [] [1; 0]%Z 1).1 = Ok (2 # 3)%Q ∧
  (ToySklearn.train_test_split [[0]; [1]] [1; 0]%Z (1 # 2) None None 0).1
  ≠ (ToySklearn.train_test_split [[0]; [1]] [1; 0]%Z (1 # 2) None None 1).1.
Proof. vm_compute. repeat split; done. Qed.

Lemma train_deterministic_witness :
  let destroyed := ToySklearn.row "Destroyed (>50%)" "Wood" "Butte" in
  let intact := ToySklearn.row "No Damage" "Tile" "Napa" in
  let wildfires :=
    (replicate 5 destroyed ++ replicate 3 intact ++ [destroyed; intact])%list in
  let run1 := train ToySklearn.sk wildfires (no_artifacts, 0) in
  let run2 := train ToySklearn.sk wildfires (no_artifacts, 99) in
  run1.1 = run2.1 ∧
  self_auc_score run1.2.1 = self_auc_score run2.2.1 ∧
  self_feature_importances run1.2.1 = self_feature_importances run2.2.1 ∧
  run1.2.1 = run2.2.1.
Proof.
  intros destroyed intact wildfires.
  exact (proj1 (train_deterministic ToySklearn.sk
           (λ X y, ToySklearn_seeded_split X y (1 # 5) 42%Z (Some y))
           (λ X y, ToySklearn_seeded_fit 100 5 42%Z X y)
           ToySklearn_predict_proba_ambient_free
           ToySklearn_roc_auc_score
           wildfires no_artifacts 0 99)).
Defined.


(** * Label order and the default code *)

(** ** Label order and codes *)

Lemma string_compare_not_Gt_trans (a b c : string) :
  String.compare a b ≠ Gt → String.compare b c ≠ Gt → String.compare a c ≠ Gt.
Proof.
  revert b c. induction a as [|x a IH]; intros [|y b] [|z c]; simpl; try done.
  unfold Ascii.compare.
  destruct (N.compare_spec (Ascii.N_of_ascii x) (Ascii.N_of_ascii y)) as [Hxy|Hxy|Hxy];
    destruct (N.compare_spec (Ascii.N_of_ascii y) (Ascii.N_of_ascii z)) as [Hyz|Hyz|Hyz];
    try done; intros Hab Hbc.
  - rewrite Hxy, Hyz, N.compare_refl. by apply (IH b c).
  - rewrite Hxy. by apply N.compare_lt_iff in Hyz as ->.
  - rewrite <-Hyz. by apply N.compare_lt_iff in Hxy as ->.
  - assert (Hxz : (Ascii.N_of_ascii x < Ascii.N_of_ascii z)%N) by lia.
    by apply N.compare_lt_iff in Hxz as ->.
Qed.

#[global] Instance str_le_trans : Transitive LabelEncoder.str_le.
Proof.
  intros a b c. unfold LabelEncoder.str_le, String.leb.
  pose proof (string_compare_not_Gt_trans a b c) as H.
  destruct (String.compare a b), (String.compare b c), (String.compare a c);
    try done; intros _ _; exfalso; by apply H.
Qed.

#[global] Instance str_le_refl : Reflexive LabelEncoder.str_le.
Proof. intros a. destruct (String.leb_total a a); done. Qed.

#[global] Instance str_le_antisym : AntiSymm (=) LabelEncoder.str_le.
Proof. intros a b. apply String.leb_antisym. Qed.

Lemma StronglySorted_classes_fit (y : list string) :
  StronglySorted LabelEncoder.str_le (LabelEncoder.classes_ (LabelEncoder.fit y)).
Proof. apply Sorted_StronglySorted; [apply _ | apply Sorted_classes_fit]. Qed.

Lemma StronglySorted_lookup_le {A} (R : relation A) `{!Reflexive R}
    (l : list A) (i j : nat) (x y : A) :
  StronglySorted R l → l !! i = Some x → l !! j = Some y → i ≤ j → R x y.
Proof.
  intros Hl. revert i j. induction Hl as [|a l Hl IH Ha]; intros i j; [done|].
  destruct i as [|i], j as [|j]; simpl; intros Hi Hj Hij; try lia.
  - by injection Hi as <-; injection Hj as <-.
  - injection Hi as <-. rewrite Forall_forall in Ha. apply Ha.
    by eapply list_elem_of_lookup_2.
  - eapply IH; [done..|lia].
Qed.

(** The codes of a fitted encoder follow the order of the labels: a smaller
    label has a smaller code, and equal codes mean equal labels. *)
Lemma codes_follow_label_order (vals : list string) (v1 v2 : string)
    (c1 c2 : nat) :
  LabelEncoder.transform1 (LabelEncoder.fit vals) v1 = Ok c1 →
  LabelEncoder.transform1 (LabelEncoder.fit vals) v2 = Ok c2 →
  (c1 ≤ c2 ↔ LabelEncoder.str_le v1 v2) ∧ (c1 = c2 ↔ v1 = v2).
Proof.
  intros H1%transform1_Ok H2%transform1_Ok.
  pose proof (StronglySorted_classes_fit vals) as Hs.
  pose proof (NoDup_classes_fit vals) as Hnd.
  assert (Heq : c1 = c2 ↔ v1 = v2).
  { split; [intros ->; congruence|].
    intros ->. by eapply NoDup_lookup. }
  split; [|done]. split.
  - intros Hle. by eapply (StronglySorted_lookup_le _ _ c1 c2).
  - intros Hle. destruct (decide (c1 ≤ c2)) as [|Hgt]; [done|].
    assert (Hle21 : LabelEncoder.str_le v2 v1).
    { eapply (StronglySorted_lookup_le _ _ c2 c1); [done..|lia]. }
    assert (Hv : v1 = v2) by (by apply (anti_symm LabelEncoder.str_le)).
    apply Heq in Hv. lia.
Qed.




(** * Training and inference together *)






Example training_rows_encode_alike_example :
  let df := [ToySklearn.row "No Damage" "Wood" "Napa";
             ToySklearn.row "Destroyed (>50%)" "Metal" "Butte"] in
  (select_columns feature_cols 2 <$>
     (fst <$> fit_encoders feature_cols df ∅ ∅))
  = Ok (Ok [[0; 0; 1; 0; 0; 0; 0; 0; 0; 0; 0; 1];
            [0; 0; 0; 0; 0; 0; 0; 0; 0; 0; 0; 0]]) ∧
  (λ p, encode_columns p.2 (cells (ToySklearn.row "No Damage" "Wood" "Napa"))
          feature_cols []) <$> fit_encoders feature_cols df ∅ ∅
  = Ok (Ok [0; 0; 1; 0; 0; 0; 0; 0; 0; 0; 0; 1]).
Proof. split; vm_compute; reflexivity. Qed.









(** * The incident card *)

(** ** Strings *)

Module StrFacts.
Import Str.


Lemma append_nil_l (t : string) : EmptyString ++ t = t.
Proof. reflexivity. Qed.







Lemma zfill_long (width : nat) (s : string) :
  width ≤ String.length s → zfill width s = s.
Proof. intros Hw. unfold zfill. by rewrite decide_True. Qed.



Lemma length_split_sep (sep : Ascii.ascii) (s cur : string) :
  length (split_sep sep s cur) = S (count (λ a, bool_decide (a = sep)) s).
Proof.
  revert cur. induction s as [|a s IH]; intros cur; simpl; [done|].
  case_decide as Ha.
  - rewrite bool_decide_true by done. simpl. by rewrite IH.
  - rewrite bool_decide_false by done. by rewrite IH.
Qed.


Lemma split_ws_all_space (s : string) :
  count isspace s = String.length s → split_ws s EmptyString = [].
Proof.
  induction s as [|a s IH]; simpl; [done|].
  destruct (isspace a) eqn:Ha; simpl.
  - intros [= H]. by apply IH.
  - intros H. assert (count isspace s ≤ String.length s); [|lia].
    clear. induction s as [|b s IH]; simpl; [done|]. destruct (isspace b); lia.
Qed.

End StrFacts.

(** ** The incidents of the wildfire card *)

Module WildfireCardFacts.
Import Str StrFacts WildfireCard.


Lemma step_cases (row : ResultRow) :
  (match row.1.1.1.1.1 with
   | None => True
   | Some d =>
       match split d with
       | [] => True
       | first :: _ => count (λ a, bool_decide (a = char "-")) first ≠ 2
       end
   end ∧ ∀ acc, step acc row = Ok acc) ∨
  (∃ d first rest month day year,
     row.1.1.1.1.1 = Some d ∧ split d = first :: rest ∧
     split_on (char "-") first = [month; day; year] ∧
     ∀ acc, step acc row =
       Ok (append_to (year ++ "-" ++ zfill 2 month)
             {| date := first; incident_name := row.1.1.1.1.2;
                damage := row.1.1.1.2; county := row.1.1.2;
                lat := row.1.2; lon := row.2 |} acc)).
Proof.
  destruct row as [[[[[[d|] name] dmg] cty] la] lo]; simpl; [|by left].
  unfold step. simpl.
  destruct (decide (d = EmptyString)) as [->|Hd].
  { left. split; [exact I | intros acc; reflexivity]. }
  unfold month_entry.
  destruct (split d) as [|first rest] eqn:Hsplit; [by left|].
  pose proof (length_split_sep (char "-") first EmptyString) as Hlen.
  fold (split_on (char "-") first) in Hlen.
  simpl.
  remember (split_on (char "-") first) as parts eqn:Hparts.
  destruct (decide (length parts = 3)) as [H3|H3].
  - right. destruct parts as [|month [|day [|year [|]]]]; try done.
    by exists d, first, rest, month, day, year.
  - left. split; [|done]. intros Hc. rewrite Hc in Hlen. done.
Qed.

Lemma step_total (acc : gmap string (list Incident)) (row : ResultRow) :
  ∃ acc', step acc row = Ok acc'.
Proof.
  destruct (step_cases row) as [[_ H]|(?&?&?&?&?&?&_&_&_&H)];
    rewrite H; eauto.
Qed.






End WildfireCardFacts.

Section WildfireCardProperties.
Import Str StrFacts WildfireCard WildfireCardFacts.






(** Dates with a time, a one-digit month, only blanks, other separators, a
    missing value and a sign in place of the month. *)
Example incidents_by_month_example :
  let row d : ResultRow := (d, None, None, None, 37 # 1, 122 # 1)%Q in
  let inc d := {| date := d; incident_name := None; damage := None;
                  county := None; lat := 37 # 1; lon := 122 # 1 |} in
  incidents_by_month
    [row (Some "08-19-2020 10:15"); row (Some "8-20-2020"); row (Some "   ");
     row (Some "2020/08/19"); row None; row (Some "+-1-2021"); row (Some EmptyString)]
  = Ok {[ "2020-08" := [inc "08-19-2020"; inc "8-20-2020"];
          "2021-+0" := [inc "+-1-2021"] ]}.
Proof. vm_compute. reflexivity. Qed.

End WildfireCardProperties.


(** * The training card *)

Module TrainCardFacts.
Import TrainCard.




Section Sorted.
Context {A : Type} (key : A → Q).






End Sorted.

Section CardFacts.
Variable format_4f : Q → string.
Variable round1 : Q → Q.
Variable title : string → string.

#[local] Abbreviation feature_charts := (feature_charts round1 title).
#[local] Abbreviation render :=
  (render_feature_importance_card format_4f round1 title).



End CardFacts.

End TrainCardFacts.

Section TrainCardProperties.
Import TrainCard TrainCardFacts.






Example card_example :
  let stat v r c := {| value := v; destruction_rate := r; count := c |} in
  let m : gmap string (list FeatureValueStat) :=
    {[ "roof_construction" := [stat "Metal" (1 # 10) 40; stat "Wood" (5 # 6) 30];
       "eaves" := [] ]} in
  render_feature_importance_card (λ _, "0.9000") id id
    [("county", 1 # 4); ("roof_construction", 1 # 2); ("eaves", 1 # 4);
     ("vent_screen", 1 # 4)]%Q (9 # 10) (Some m)
  = [ Markdown "# Model Training Results";
      Markdown "**AUC Score:** 0.9000";
      Markdown "## Feature Importances";
      ImportanceChart [("county", 1 # 4); ("roof_construction", 1 # 2);
                       ("eaves", 1 # 4); ("vent_screen", 1 # 4)]%Q;
      Markdown "## Feature Values Correlated with Destruction";
      Markdown "*Showing values with highest destruction rates (min 20 samples)*";
      Markdown "### roof construction";
      DestructionChart
        [ {| row_value := "Wood"; row_destruction_rate := (5 # 6) * 100;
             row_count := 30 |};
          {| row_value := "Metal"; row_destruction_rate := (1 # 10) * 100;
             row_count := 40 |} ] ].
Proof. vm_compute. reflexivity. Qed.

End TrainCardProperties.


(** * The scenario app *)

Section ScenarioAppProperties.
Import ScenarioApp.




Section MainFacts.
Variable selectbox : string → list string → string → string.



End MainFacts.


Example build_features_example :
  (λ features, (features !! "county", features !! "eaves", features !! "zip"))
    <$> build_features (λ label options key, default EmptyString (head options)) "Napa"
  = Ok (Some "Napa", Some "Enclosed", None).
Proof. vm_compute. reflexivity. Qed.



Section ClosestCountyFacts.
Context {float : Type}.
Variable dist : float → float → float.
Variable lt : float → float → bool.
Hypothesis lt_irrefl : ∀ a, lt a a = false.
Hypothesis lt_trans : ∀ a b c, lt a b = true → lt b c = true → lt a c = true.


End ClosestCountyFacts.



End ScenarioAppProperties.
